(** * review.py: the review-staging engine, embedded and verified

    A shallow embedding of [scripts/review.py].  Python text is modelled as
    [string] over code points 0..255; the file system, the version-control
    binary, the search tool and the editor are components of an explicit
    [World] threaded through a small state-and-exception monad, and every
    external command the script starts is appended to a trace. *)

From Stdlib Require Import ZArith Ascii String List Bool Lia DecimalString.
From stdpp Require Import base gmap strings list.
Import ListNotations.
Open Scope string_scope.

(** ** Python [str] primitives *)

Module PyStr.

(** [str.isspace] on one code point below 256; the class also used by
    [str.strip] and by the regular expression escape [\s]. *)
Definition is_space (c : ascii) : bool :=
  let n := nat_of_ascii c in
  (((9 <=? n) && (n <=? 13)) || ((28 <=? n) && (n <=? 32))
   || (n =? 133) || (n =? 160))%nat.

(** The decimal digits matched by [\d] below code point 256. *)
Definition is_digit (c : ascii) : bool :=
  let n := nat_of_ascii c in ((48 <=? n) && (n <=? 57))%nat.

Definition nonempty (s : string) : bool :=
  match s with EmptyString => false | String _ _ => true end.

Fixpoint lstrip (s : string) : string :=
  match s with
  | EmptyString => EmptyString
  | String c s' => if is_space c then lstrip s' else s
  end.

Fixpoint rstrip (s : string) : string :=
  match s with
  | EmptyString => EmptyString
  | String c s' =>
      match rstrip s' with
      | EmptyString => if is_space c then EmptyString else String c EmptyString
      | r => String c r
      end
  end.

(** [s.strip()] *)
Definition strip (s : string) : string := lstrip (rstrip s).

(** [s.lstrip(c)] for a one-character argument. *)
Fixpoint lstrip_char (c0 : ascii) (s : string) : string :=
  match s with
  | EmptyString => EmptyString
  | String c s' => if Ascii.eqb c c0 then lstrip_char c0 s' else s
  end.

(** [s.lower()] below code point 256: the ASCII capitals and the Latin-1
    capitals other than the multiplication sign move up by 32. *)
Definition lower_char (c : ascii) : ascii :=
  let n := nat_of_ascii c in
  if (((65 <=? n) && (n <=? 90))
      || ((192 <=? n) && (n <=? 222) && negb (n =? 215)))%nat
  then ascii_of_nat (n + 32) else c.

Fixpoint lower (s : string) : string :=
  match s with
  | EmptyString => EmptyString
  | String c s' => String (lower_char c) (lower s')
  end.

(** [s.startswith(p)] *)
Definition startswith (p s : string) : bool := String.prefix p s.

Fixpoint drop (n : nat) (s : string) : string :=
  match n, s with
  | O, _ => s
  | S _, EmptyString => EmptyString
  | S n', String _ s' => drop n' s'
  end.

(** [s[:n]] *)
Fixpoint take (n : nat) (s : string) : string :=
  match n, s with
  | O, _ => EmptyString
  | S _, EmptyString => EmptyString
  | S n', String c s' => String c (take n' s')
  end.

(** [sub in s] *)
Fixpoint contains (sub s : string) : bool :=
  String.prefix sub s
  || match s with
     | EmptyString => false
     | String _ s' => contains sub s'
     end.

(** Index of the leftmost occurrence of [sub] in [s]. *)
Fixpoint find (sub s : string) : option nat :=
  if String.prefix sub s then Some 0
  else match s with
       | EmptyString => None
       | String _ s' => option_map S (find sub s')
       end.

(** [s.find(sub, start)], with [None] for Python's [-1]. *)
Definition find_from (sub s : string) (start : nat) : option nat :=
  if (start <=? String.length s)%nat
  then option_map (Nat.add start) (find sub (drop start s))
  else None.

(** [s.split(sep)] for a one-character separator. *)
Fixpoint split (sep : ascii) (s : string) : list string :=
  match s with
  | EmptyString => [EmptyString]
  | String c s' =>
      if Ascii.eqb c sep then EmptyString :: split sep s'
      else match split sep s' with
           | h :: t => String c h :: t
           | [] => [String c EmptyString]
           end
  end.

(** [sep.join(parts)] *)
Definition join (sep : string) (parts : list string) : string :=
  String.concat sep parts.

(** [str(n)] and the [{n}] of an f-string, for an [int]. *)
Definition str_of_int (n : Z) : string :=
  NilZero.string_of_int (Z.to_int n).

Definition digit_val (c : ascii) : Z := Z.of_nat (nat_of_ascii c) - 48.

(** Digits of an integer literal as [int(...)] reads them: decimal digits,
    single underscores allowed between two digits. [acc] is the value read
    so far, [sep] tells that the previous character was an underscore. *)
Fixpoint int_digits (acc : Z) (sep : bool) (s : string) : option Z :=
  match s with
  | EmptyString => if sep then None else Some acc
  | String c s' =>
      if is_digit c then int_digits (10 * acc + digit_val c) false s'
      else if Ascii.eqb c "_" && negb sep
           then match s' with
                | EmptyString => None
                | String _ _ => int_digits acc true s'
                end
           else None
  end.

Definition int_unsigned (s : string) : option Z :=
  match s with
  | String c _ => if is_digit c then int_digits 0 false s else None
  | EmptyString => None
  end.

(** [int(s)] for a [str] argument, [None] where Python raises [ValueError]. *)
Definition int_of_str (s : string) : option Z :=
  match strip s with
  | String "-" r => option_map Z.opp (int_unsigned r)
  | String "+" r => int_unsigned r
  | r => int_unsigned r
  end.

(** The text after the leftmost occurrence of [m] in [s]. *)
Fixpoint after_first (m s : string) : option string :=
  if String.prefix m s then Some (drop (String.length m) s)
  else match s with
       | EmptyString => None
       | String _ s' => after_first m s'
       end.

End PyStr.

Import PyStr.

(** The line separator of [content.split("\n")]. *)
Definition NL : ascii := "010"%char.

(** ** Result records

    The script returns Python dicts built from literals; they are modelled as
    association lists in the literal's key order, with JSON-like values. *)

#[local] Set Warnings "-register-all".

Inductive value : Type :=
| VStr (s : string)
| VInt (n : Z)
| VBool (b : bool)
| VList (l : list value)
| VDict (d : list (string * value)).

Abbreviation dict := (list (string * value)).

(** [d.get(k)] *)
Fixpoint dict_get (k : string) (d : dict) : option value :=
  match d with
  | [] => None
  | (k', v) :: d' => if String.eqb k k' then Some v else dict_get k d'
  end.

(** ** The world outside the script *)

(** Paths are modelled by their text; [pathlib]'s purely lexical clean-up of
    that text (doubled or trailing slashes) is not modelled. *)
Abbreviation Path := string (only parsing).

(** [a / b] *)
Definition pjoin (a b : Path) : Path :=
  if startswith "/" b then b else a ++ "/" ++ b.

(** [subprocess.CompletedProcess] with captured text streams. *)
Record CompletedProcess : Type := mkCP {
  returncode : Z;
  stdout : string;
  stderr : string;
}.

(** External commands started by the script, in the order they are run. *)
Inductive Event : Type :=
| EvGit (args : list string) (cwd : Path)
| EvGrep (argv : list string) (cwd : Path)
| EvSpawn (argv : list string).

Record World : Type := mkWorld {
  (** regular files and their text, by path *)
  w_files : gmap string string;
  (** directories *)
  w_dirs : gset string;
  (** [Path(__file__).parent.parent] *)
  w_workspace : Path;
  (** [Path.cwd()] *)
  w_cwd : Path;
  (** what [Path.resolve] answers *)
  w_realpath : Path -> Path;
  (** the version-control binary: arguments and working directory to outcome *)
  w_git : list string -> Path -> CompletedProcess;
  (** the search tool *)
  w_grep : list string -> Path -> CompletedProcess;
  (** whether the editor binary [code] can be started *)
  w_code_spawns : bool;
  (** external commands run so far, oldest first *)
  w_trace : list Event;
}.

Inductive exn : Type :=
| ValueError (msg : string)
| FileNotFoundError (what : string)
| FileExistsError (what : string)
| IsADirectoryError (what : string)
| NotADirectoryError (what : string).

(** ** A state-and-exception monad over the world *)

Definition M (A : Type) : Type := World -> World * (exn + A).

Definition ret {A} (a : A) : M A := fun w => (w, inr a).

Definition raise {A} (e : exn) : M A := fun w => (w, inl e).

Definition bind {A B} (m : M A) (k : A -> M B) : M B :=
  fun w => match m w with
           | (w', inl e) => (w', inl e)
           | (w', inr a) => k a w'
           end.

Definition gets {A} (f : World -> A) : M A := fun w => (w, inr (f w)).

Definition modify (f : World -> World) : M unit := fun w => (f w, inr tt).

Declare Scope py_scope.
Delimit Scope py_scope with py.
Notation "x <- c1 ;; c2" := (bind c1 (fun x => c2))
  (at level 100, c1 at next level, right associativity) : py_scope.
Notation "c1 ;;; c2" := (bind c1 (fun _ => c2))
  (at level 100, right associativity) : py_scope.
Open Scope py_scope.

(** The world after one more external command has been run. *)
Definition log_event (e : Event) (w : World) : World :=
  mkWorld (w_files w) (w_dirs w) (w_workspace w) (w_cwd w) (w_realpath w)
    (w_git w) (w_grep w) (w_code_spawns w) (w_trace w ++ [e])%list.

Definition emit (e : Event) : M unit := modify (log_event e).

(** [p.exists()] *)
Definition path_exists (p : Path) : M bool :=
  gets (fun w => bool_decide (is_Some (w_files w !! p))
                 || bool_decide (p ∈ w_dirs w)).

(** [p.read_text()] *)
Definition read_text (p : Path) : M string :=
  fun w => match w_files w !! p with
           | Some text => (w, inr text)
           | None => if bool_decide (p ∈ w_dirs w)
                     then (w, inl (IsADirectoryError p))
                     else (w, inl (FileNotFoundError p))
           end.

(** [p.mkdir(exist_ok=True)] *)
Definition mkdir_exist_ok (p : Path) : M unit :=
  fun w => if bool_decide (is_Some (w_files w !! p))
           then (w, inl (FileExistsError p))
           else (mkWorld (w_files w) ({[p]} ∪ w_dirs w) (w_workspace w)
                   (w_cwd w) (w_realpath w) (w_git w) (w_grep w)
                   (w_code_spawns w) (w_trace w), inr tt).

(** [p.write_text(text)] *)
Definition write_text (p : Path) (text : string) : M unit :=
  fun w => if bool_decide (p ∈ w_dirs w)
           then (w, inl (IsADirectoryError p))
           else (mkWorld (<[p := text]> (w_files w)) (w_dirs w)
                   (w_workspace w) (w_cwd w) (w_realpath w) (w_git w)
                   (w_grep w) (w_code_spawns w) (w_trace w), inr tt).

(** ** Workspace paths *)

Definition STATE_DIR (w : World) : Path := pjoin (w_workspace w) ".state".
Definition VSCODE_MODE_FILE (w : World) : Path :=
  pjoin (STATE_DIR w) "vscode-mode".
Definition VSCODE_COMMANDS_FILE (w : World) : Path :=
  pjoin (STATE_DIR w) "vscode-commands".
Definition ACTIVE_TASK_FILE (w : World) : Path :=
  pjoin (pjoin (w_workspace w) ".claude") "active-task".
Definition DIRECTORY_MAP_FILE (w : World) : Path :=
  pjoin (w_workspace w) "directory-map.md".

(** ** The script *)

(** [get_vscode_mode] *)
Definition get_vscode_mode : M string :=
  p <- gets VSCODE_MODE_FILE ;;
  ex <- path_exists p ;;
  if ex then
    text <- read_text p ;;
    let mode := lower (strip text) in
    if String.eqb mode "local" || String.eqb mode "remote"
    then ret mode else ret "remote"
  else ret "remote".

(** The loop of [parse_directory_map] over the lines of the document;
    [in_table] and [aliases] are the loop's variables, the result is the
    table when the loop ends or breaks. *)
Fixpoint parse_rows (in_table : bool) (aliases : gmap string string)
    (lines : list string) : gmap string string :=
  match lines with
  | [] => aliases
  | line :: rest =>
      if contains "| Alias |" line then parse_rows true aliases rest
      else if in_table then
        if startswith "|---" line then parse_rows true aliases rest
        else if negb (startswith "|" line) then aliases
        else
          let parts := map strip (split "|" line) in
          if (3 <=? length parts)%nat then
            let alias := nth 1 parts "" in
            let path := nth 2 parts "" in
            if nonempty alias && nonempty path
               && negb (startswith "---" alias)
            then parse_rows true (<[alias := path]> aliases) rest
            else parse_rows true aliases rest
          else parse_rows true aliases rest
      else parse_rows false aliases rest
  end.

(** [parse_directory_map] *)
Definition parse_directory_map : M (gmap string string) :=
  p <- gets DIRECTORY_MAP_FILE ;;
  ex <- path_exists p ;;
  if negb ex then ret ∅
  else
    content <- read_text p ;;
    ret (parse_rows false ∅ (split NL content)).

(** The loop of [get_active_task_repos] over the lines of the frontmatter. *)
Fixpoint collect_repos (in_repos : bool) (repos : list string)
    (lines : list string) : list string :=
  match lines with
  | [] => repos
  | line :: rest =>
      if startswith "repositories:" (strip line)
      then collect_repos true repos rest
      else if in_repos then
        if startswith "-" (strip line) then
          let repo := strip (lstrip_char "-" (strip line)) in
          let repo := strip (nth 0 (split "#" repo) "") in
          if nonempty repo then collect_repos true (repos ++ [repo])%list rest
          else collect_repos true repos rest
        else if nonempty (strip line) && negb (startswith " " line)
             then repos
             else collect_repos true repos rest
      else collect_repos false repos rest
  end.

(** [get_active_task_repos] *)
Definition get_active_task_repos : M (list string) :=
  p <- gets ACTIVE_TASK_FILE ;;
  ex <- path_exists p ;;
  if negb ex then ret []
  else
    text <- read_text p ;;
    let task_name := strip text in
    ws <- gets w_workspace ;;
    let task_file :=
      pjoin (pjoin (pjoin ws "tasks") "active") (task_name ++ ".md") in
    ex' <- path_exists task_file ;;
    if negb ex' then ret []
    else
      content <- read_text task_file ;;
      if negb (startswith "---" content) then ret []
      else match find_from "---" content 3 with
           | None => ret []
           | Some end_idx =>
               let frontmatter := take (end_idx - 3) (drop 3 content) in
               ret (collect_repos false [] (split NL frontmatter))
           end.

(** [resolve_repo]; [None] is Python's [None]. *)
Definition resolve_repo (alias : option string) : M Path :=
  aliases <- parse_directory_map ;;
  match alias with
  | Some (String c a' as a) =>
      match aliases !! a with
      | Some path => ret path
      | None =>
          ex <- path_exists a ;;
          if ex then
            rp <- gets w_realpath ;;
            ret (rp a)
          else raise (ValueError ("Unknown repo alias: " ++ a))
      end
  | _ =>
      task_repos <- get_active_task_repos ;;
      match task_repos with
      | first_repo :: _ =>
          match aliases !! first_repo with
          | Some path => ret path
          | None => gets w_cwd
          end
      | [] => gets w_cwd
      end
  end.

(** [git]: runs the binary, records the call, returns the captured outcome.
    The call is modelled from the point where the binary has started in
    [cwd]; what the strategies do is stated for given answers of the binary
    or for a record they return. *)
Definition git (args : list string) (cwd : Path) : M CompletedProcess :=
  emit (EvGit args cwd) ;;;
  gets (fun w => w_git w args cwd).

(** [open_in_vscode] *)
Definition open_in_vscode (files : list string) (new_window : bool) : M unit :=
  match files with
  | [] => ret tt
  | _ :: _ =>
      let cmd_parts :=
        (["code"] ++ (if new_window then ["--new-window"] else [])
           ++ files)%list in
      let cmd := join " " cmd_parts in
      mode <- get_vscode_mode ;;
      if String.eqb mode "local" then
        spawns <- gets w_code_spawns ;;
        if spawns then emit (EvSpawn cmd_parts)
        else raise (FileNotFoundError "code")
      else
        d <- gets STATE_DIR ;;
        mkdir_exist_ok d ;;;
        f <- gets VSCODE_COMMANDS_FILE ;;
        write_text f (cmd ++ String NL "")
  end.

(** [[f for f in text.strip().split("\n") if f]] *)
Definition nonempty_lines (text : string) : list string :=
  List.filter nonempty (split NL (strip text)).

Definition nonzero (n : Z) : bool := negb (n =? 0)%Z.

(** [cmd_incremental] *)
Definition cmd_incremental (repo : Path) (n : Z) : M dict :=
  let base := "HEAD~" ++ str_of_int n in
  result <- git ["diff"; "--name-only"; base] repo ;;
  if nonzero (returncode result) then
    ret [("status", VStr "error");
         ("error", VStr (strip (stderr result)));
         ("repo", VStr repo)]
  else
    let files := nonempty_lines (stdout result) in
    match files with
    | [] =>
        ret [("status", VStr "nothing_to_review");
             ("base", VStr base);
             ("repo", VStr repo)]
    | _ :: _ =>
        branch_result <- git ["branch"; "--show-current"] repo ;;
        let current_branch :=
          if nonzero (returncode branch_result) then "unknown"
          else strip (stdout branch_result) in
        let full_paths := map (pjoin repo) files in
        open_in_vscode full_paths true ;;;
        mode <- get_vscode_mode ;;
        ret [("status", VStr "staged");
             ("mode", VStr mode);
             ("repo", VStr repo);
             ("branch", VStr current_branch);
             ("base", VStr base);
             ("head", VStr "HEAD");
             ("files", VList (map VStr files));
             ("file_count", VInt (Z.of_nat (length files)))]
    end.

(** [int(text)] as a computation; the message of the [ValueError] is
    shortened to the offending text. *)
Definition py_int (text : string) : M Z :=
  match int_of_str text with
  | Some n => ret n
  | None => raise (ValueError ("invalid literal for int(): " ++ text))
  end.

(** [cmd_milestone] *)
Definition cmd_milestone (repo : Path) (branch : string) : M dict :=
  merge_base_result <- git ["merge-base"; "HEAD"; branch] repo ;;
  if nonzero (returncode merge_base_result) then
    ret [("status", VStr "error");
         ("error", VStr ("Could not find merge base with " ++ branch));
         ("repo", VStr repo)]
  else
    let merge_base := strip (stdout merge_base_result) in
    result <- git ["diff"; "--name-only"; merge_base] repo ;;
    let files := nonempty_lines (stdout result) in
    count_result <-
      git ["rev-list"; "--count"; merge_base ++ "..HEAD"] repo ;;
    commit_count <-
      (if nonzero (returncode count_result) then ret 0%Z
       else py_int (strip (stdout count_result))) ;;
    branch_result <- git ["branch"; "--show-current"] repo ;;
    let current_branch :=
      if nonzero (returncode branch_result) then "unknown"
      else strip (stdout branch_result) in
    match files with
    | [] =>
        ret [("status", VStr "nothing_to_review");
             ("base", VStr branch);
             ("merge_base", VStr (take 8 merge_base));
             ("repo", VStr repo)]
    | _ :: _ =>
        let full_paths := map (pjoin repo) files in
        open_in_vscode full_paths true ;;;
        mode <- get_vscode_mode ;;
        ret [("status", VStr "staged");
             ("mode", VStr mode);
             ("repo", VStr repo);
             ("branch", VStr current_branch);
             ("base", VStr branch);
             ("merge_base", VStr (take 8 merge_base));
             ("files", VList (map VStr files));
             ("file_count", VInt (Z.of_nat (length files)));
             ("commit_count", VInt commit_count)]
    end.

(** *** The comment scanner *)

(** The text before the first [c0] and the text after it. *)
Fixpoint span_until (c0 : ascii) (s : string) : option (string * string) :=
  match s with
  | EmptyString => None
  | String c s' =>
      if Ascii.eqb c c0 then Some (EmptyString, s')
      else match span_until c0 s' with
           | Some (a, b) => Some (String c a, b)
           | None => None
           end
  end.

Fixpoint all_digits (s : string) : bool :=
  match s with
  | EmptyString => true
  | String c s' => is_digit c && all_digits s'
  end.

(** An optional leading [c], given up when nothing would be left after it. *)
Definition strip_opt (c : ascii) (s : string) : string :=
  match s with
  | String c' (String _ _ as r) => if Ascii.eqb c' c then r else s
  | _ => s
  end.

(** The [re.match] of [cmd_comments] on a line without a line break, as its
    groups 1, 2 and 3.  The pattern is: start of line, an optional dot, an
    optional slash, group 1 of one or more characters other than a colon, a
    colon, group 2 of one or more digits, a colon, group 3 of anything up to
    the end.  The three leading items can only consume the text before the
    first colon and the digits exactly the text between the first two
    colons; the optional dot and slash are taken greedily as long as group 1
    stays non-empty. *)
Definition match_grep_line (line : string)
  : option (string * string * string) :=
  match span_until ":" line with
  | Some (p, r) =>
      match span_until ":" r with
      | Some (d, text) =>
          if nonempty p && nonempty d && all_digits d
          then Some (strip_opt "/" (strip_opt "." p), d, text)
          else None
      | None => None
      end
  | None => None
  end.

(** The two [re.search] calls of [cmd_comments] on text without a line
    break, as group 1.  The pattern is the marker, any number of blanks, and
    a group of anything up to the end: the search stops at the leftmost
    occurrence of the marker, the blanks after it are all skipped and the
    group is the rest. *)
Definition re_search_marker (marker content : string) : option string :=
  option_map lstrip (after_first marker content).

Definition comment_record (repo filepath : string) (lineno : Z)
    (content comment_text : string) (yolo : bool) : dict :=
  [("file", VStr (pjoin repo filepath));
   ("relative_path", VStr filepath);
   ("line", VInt lineno);
   ("raw", VStr content);
   ("comment", VStr comment_text);
   ("yolo", VBool yolo)].

(** One round of the loop of [cmd_comments]: the records to append for
    [line], or the exception raised. *)
Definition scan_line (repo : Path) (line : string) : exn + list dict :=
  if negb (nonempty line) then inr []
  else
    match match_grep_line line with
    | Some (filepath, digits, text) =>
        match int_of_str digits with
        | None => inl (ValueError ("invalid literal for int(): " ++ digits))
        | Some lineno =>
            let content := strip text in
            let rvwy_match := re_search_marker "RVWY:" content in
            let rvw_match := re_search_marker "RVW:" content in
            match rvwy_match, rvw_match with
            | Some comment_text, _ =>
                inr [comment_record repo filepath lineno content
                       comment_text true]
            | None, Some comment_text =>
                inr [comment_record repo filepath lineno content
                       comment_text false]
            | None, None => inr []
            end
        end
    | None => inr []
    end.

Fixpoint scan_lines (repo : Path) (comments : list dict)
    (lines : list string) : exn + list dict :=
  match lines with
  | [] => inr comments
  | line :: rest =>
      match scan_line repo line with
      | inl e => inl e
      | inr recs => scan_lines repo (comments ++ recs)%list rest
      end
  end.

Definition GREP_ARGV : list string :=
  ["grep"; "-rn"; "-E"; "RVWY?:";
   "--include=*.py"; "--include=*.cpp"; "--include=*.c"; "--include=*.h";
   "--include=*.hpp"; "--include=*.cmake"; "--include=CMakeLists.txt";
   "--include=*.md"; "--include=*.toml"; "--include=*.yaml";
   "--include=*.yml"; "--include=*.sh"; "--include=*.js"; "--include=*.ts";
   "."].

(** Starting a child process in [cwd], as [subprocess.run] does before the
    command itself runs: it raises when [cwd] is not an existing
    directory. *)
Definition start_in (cwd : Path) : M unit :=
  fun w => if bool_decide (cwd ∈ w_dirs w) then (w, inr tt)
           else if bool_decide (is_Some (w_files w !! cwd))
                then (w, inl (NotADirectoryError cwd))
                else (w, inl (FileNotFoundError cwd)).

(** [cmd_comments]: starts the search tool in [repo], which raises when
    [repo] is no directory, and scans the lines of its standard output; the
    exit code and the standard error are not looked at.  The tool is taken
    to be installed and its output to be text. *)
Definition cmd_comments (repo : Path) : M dict :=
  start_in repo ;;;
  emit (EvGrep GREP_ARGV repo) ;;;
  result <- gets (fun w => w_grep w GREP_ARGV repo) ;;
  match scan_lines repo [] (split NL (strip (stdout result))) with
  | inl e => raise e
  | inr comments =>
      ret [("repo", VStr repo);
           ("count", VInt (Z.of_nat (length comments)));
           ("comments", VList (map VDict comments))]
  end.

(** [cmd_stack] *)
Definition cmd_stack (repo : Path) (branch : string) : M dict :=
  merge_base_result <- git ["merge-base"; "HEAD"; branch] repo ;;
  if nonzero (returncode merge_base_result) then
    ret [("status", VStr "error");
         ("error", VStr ("Could not find merge base with " ++ branch));
         ("repo", VStr repo)]
  else
    let merge_base := strip (stdout merge_base_result) in
    log_result <- git ["log"; "--oneline"; merge_base ++ "..HEAD"] repo ;;
    let commits := nonempty_lines (stdout log_result) in
    branch_result <- git ["branch"; "--show-current"] repo ;;
    let current_branch :=
      if nonzero (returncode branch_result) then "unknown"
      else strip (stdout branch_result) in
    stat_result <- git ["diff"; "--stat"; merge_base] repo ;;
    let stats :=
      if nonzero (returncode stat_result) then ""
      else strip (stdout stat_result) in
    ret [("repo", VStr repo);
         ("branch", VStr current_branch);
         ("base", VStr branch);
         ("merge_base", VStr (take 8 merge_base));
         ("commits", VList (map VStr commits));
         ("count", VInt (Z.of_nat (length commits)));
         ("stats", VStr stats)].

(** The loop of [cmd_open]: a name that exists is replaced by its resolved
    path, any other name is kept as it is. *)
Fixpoint resolve_files (files : list string) : M (list string) :=
  match files with
  | [] => ret []
  | f :: rest =>
      ex <- path_exists f ;;
      r <- (if ex then rp <- gets w_realpath ;; ret (rp f) else ret f) ;;
      resolved <- resolve_files rest ;;
      ret (r :: resolved)
  end.

(** [cmd_open] *)
Definition cmd_open (files : list string) : M dict :=
  resolved <- resolve_files files ;;
  open_in_vscode resolved true ;;;
  mode <- get_vscode_mode ;;
  ret [("status", VStr "opened");
       ("mode", VStr mode);
       ("files", VList (map VStr resolved));
       ("file_count", VInt (Z.of_nat (length resolved)))].

(** ** Vocabulary of the statements *)

Definition is_value_error (e : exn) : bool :=
  match e with ValueError _ => true | _ => false end.

(** The queries the strategies send to the version-control binary. *)
Definition diff_args (n : Z) : list string :=
  ["diff"; "--name-only"; "HEAD~" ++ str_of_int n].
Definition branch_args : list string := ["branch"; "--show-current"].
Definition merge_base_args (branch : string) : list string :=
  ["merge-base"; "HEAD"; branch].
Definition diff_base_args (merge_base : string) : list string :=
  ["diff"; "--name-only"; merge_base].
Definition count_args (merge_base : string) : list string :=
  ["rev-list"; "--count"; merge_base ++ "..HEAD"].

(** The [status] entry of a result record. *)
Definition status_of (d : dict) : option string :=
  match dict_get "status" d with
  | Some (VStr s) => Some s
  | _ => None
  end.

(** The file entries a result record carries: those of its [files] entry,
    none when the record has no such entry. *)
Definition files_of (d : dict) : list value :=
  match dict_get "files" d with
  | Some (VList l) => l
  | _ => []
  end.

Ltac unfold_m :=
  unfold emit in *; unfold bind, ret, raise, gets, modify in *;
  cbn beta iota in *.

(** ** Scripted worlds

    A fake adapter answers from a script of (arguments, outcome) pairs and
    like [fallback] for any other query. *)

Fixpoint scripted (script : list (list string * CompletedProcess))
    (fallback : list string -> string -> CompletedProcess)
    (args : list string) (cwd : string) : CompletedProcess :=
  match script with
  | [] => fallback args cwd
  | (a, r) :: rest =>
      if bool_decide (a = args) then r else scripted rest fallback args cwd
  end.

Definition line (s : string) : string := s ++ String NL "".

Definition usage_error : CompletedProcess :=
  mkCP 129 "" (line "usage: git <command>").

(** A branch [feat] two files ahead of [main]. *)
Definition healthy_git : list string -> string -> CompletedProcess :=
  scripted
    [(["diff"; "--name-only"; "HEAD~1"],
      mkCP 0 (line "a.py" ++ line "docs/b.md") "");
     (["diff"; "--name-only"; "HEAD~0"], mkCP 0 "" "");
     (["diff"; "--name-only"; "HEAD~-1"],
      mkCP 128 "" (line "fatal: ambiguous argument 'HEAD~-1'"));
     (["branch"; "--show-current"], mkCP 0 (line "feat") "");
     (["merge-base"; "HEAD"; "main"], mkCP 0 (line "0123456789abcdef") "");
     (["merge-base"; "HEAD"; "dev"],
      mkCP 128 "" (line "fatal: Not a valid object name dev"));
     (["diff"; "--name-only"; "0123456789abcdef"],
      mkCP 0 (line "a.py" ++ line "docs/b.md") "");
     (["rev-list"; "--count"; "0123456789abcdef..HEAD"],
      mkCP 0 (line "3") "")]
    (fun _ _ => usage_error).

(** The same repository seen through a binary that knows neither
    [branch --show-current] nor [rev-list --count]. *)
Definition old_git : list string -> string -> CompletedProcess :=
  scripted
    [(["branch"; "--show-current"],
      mkCP 129 "" (line "error: unknown option `show-current'"));
     (["rev-list"; "--count"; "0123456789abcdef..HEAD"],
      mkCP 129 "" (line "usage: git rev-list"))]
    healthy_git.

(** A repository whose merge base with [main] exists but cannot be diffed,
    and a branch [same] that has nothing ahead of [main]. *)
Definition broken_git : list string -> string -> CompletedProcess :=
  scripted
    [(["diff"; "--name-only"; "0123456789abcdef"],
      mkCP 128 "" (line "fatal: bad object 0123456789abcdef"));
     (["merge-base"; "HEAD"; "same"], mkCP 0 (line "89abcdef01234567") "");
     (["diff"; "--name-only"; "89abcdef01234567"], mkCP 0 "" "");
     (["rev-list"; "--count"; "89abcdef01234567..HEAD"],
      mkCP 0 (line "0") "")]
    healthy_git.

Definition no_grep : list string -> string -> CompletedProcess :=
  fun _ _ => mkCP 2 "" (line "grep: .: No such file or directory").

Definition world_with (g gr : list string -> string -> CompletedProcess)
    (files : gmap string string) : World :=
  mkWorld files ∅ "/ws" "/home/user" (fun p => "/real" ++ p) g gr true [].

Definition healthy_world : World := world_with healthy_git no_grep ∅.
Definition old_git_world : World := world_with old_git no_grep ∅.
Definition broken_world : World := world_with broken_git no_grep ∅.

(** The pair a table row contributes, as the loop body of
    [parse_directory_map] computes it from the cells of the line. *)
Definition row_entry (ln : string) : option (string * string) :=
  let parts := map strip (split "|" ln) in
  if (3 <=? length parts)%nat then
    let alias := nth 1 parts "" in
    let path := nth 2 parts "" in
    if nonempty alias && nonempty path && negb (startswith "---" alias)
    then Some (alias, path) else None
  else None.

(** The pair a line adds to the table when the loop meets it inside the
    table: none for a header, a separator or a line that ends the table. *)
Definition table_row (ln : string) : option (string * string) :=
  if contains "| Alias |" ln then None
  else if startswith "|---" ln then None
  else if negb (startswith "|" ln) then None
  else row_entry ln.

(** Lines that do not end the table. *)
Definition continues_table (ln : string) : bool :=
  contains "| Alias |" ln || startswith "|" ln.

(** Whether [ln] is a row for the alias [a]. *)
Definition row_for (a : string) (ln : string) : bool :=
  match table_row ln with
  | Some (a', _) => String.eqb a' a
  | None => false
  end.

(** [p.exists()] as a function of the world. *)
Definition exists_in (w : World) (p : string) : bool :=
  bool_decide (is_Some (w_files w !! p)) || bool_decide (p ∈ w_dirs w).

(** A workspace with an alias table that names [iree] twice and an active
    task whose first repository is [llvm]. *)
Definition sample_map_doc : string :=
  line "# Directory map"
  ++ line ""
  ++ line "| Alias | Path | Notes |"
  ++ line "|-------|------|-------|"
  ++ line "| iree | /src/iree | main checkout |"
  ++ line "| llvm | /src/llvm-project | |"
  ++ line "| iree | /src/iree-next | newer checkout |"
  ++ line ""
  ++ line "| late | /src/late | after the table |".

Definition sample_task_doc : string :=
  line "---"
  ++ line "title: fix the tiling bug"
  ++ line "repositories:"
  ++ line "  - llvm  # the compiler"
  ++ line "  - iree"
  ++ line "status: active"
  ++ line "---"
  ++ line "Notes.".

Definition workspace_files : gmap string string :=
  <["/ws/directory-map.md" := sample_map_doc]>
    (<["/ws/.claude/active-task" := line "tiling"]>
       (<["/ws/tasks/active/tiling.md" := sample_task_doc]>
          (<["/tmp/checkout" := ""]> ∅))).

Definition workspace_world : World :=
  world_with healthy_git no_grep workspace_files.

(** The same workspace without an active task. *)
Definition idle_world : World :=
  world_with healthy_git no_grep
    (<["/ws/directory-map.md" := sample_map_doc]> ∅).

(** Whether [c0] does not occur in [s]. *)
Fixpoint lacks (c0 : ascii) (s : string) : bool :=
  match s with
  | EmptyString => true
  | String c s' => negb (Ascii.eqb c c0) && lacks c0 s'
  end.

(** A line of the search tool's output: file name, line number, text. *)
Definition grep_line (path digits text : string) : string :=
  path ++ ":" ++ digits ++ ":" ++ text.

(** The argument vector and the command line [open_in_vscode] builds. *)
Definition editor_argv (files : list string) (new_window : bool)
  : list string :=
  (["code"] ++ (if new_window then ["--new-window"] else []) ++ files)%list.

Definition editor_command (files : list string) (new_window : bool)
  : string :=
  join " " (editor_argv files new_window).

(** Queries to the version-control binary, among the external commands. *)
Definition is_git (e : Event) : bool :=
  match e with EvGit _ _ => true | _ => false end.

(** A workspace whose mode marker says [Local], with a trailing line break,
    and one whose alias document has no table. *)
Definition local_world : World :=
  world_with healthy_git no_grep
    (<["/ws/.state/vscode-mode" := line " Local "]> ∅).

Definition untabled_world : World :=
  world_with healthy_git no_grep
    (<["/ws/directory-map.md" :=
         line "# Directory map" ++ line "| iree | /src/iree | |"]> ∅).


(** The world with another file system. *)
Definition with_fs (files : gmap string string) (dirs : gset string)
    (w : World) : World :=
  mkWorld files dirs (w_workspace w) (w_cwd w) (w_realpath w) (w_git w)
    (w_grep w) (w_code_spawns w) (w_trace w).

(** The world after a command line has been left for the remote watcher. *)
Definition staged_remotely (cmd : string) (w : World) : World :=
  with_fs (<[VSCODE_COMMANDS_FILE w := cmd ++ String NL ""]> (w_files w))
    ({[STATE_DIR w]} ∪ w_dirs w) w.


(** The external commands run between two worlds, when the second world's
    trace extends the first's. *)
Definition new_events (w w' : World) : list Event :=
  List.skipn (length (w_trace w)) (w_trace w').


(** The records one round of the scanner's loop appends for a line. *)
Definition line_records (repo ln : string) : list dict :=
  match scan_line repo ln with
  | inr recs => recs
  | inl _ => []
  end.

(** A checkout at [/repo] with two annotated lines, and a regular file at
    [/tmp/checkout]. *)
Definition review_grep : list string -> string -> CompletedProcess :=
  fun _ _ =>
    mkCP 0 (line "./src/a.cpp:42:  // RVWY: fix bounds check"
            ++ line "./tools/b.py:3:# RVW: discuss naming") "".

Definition checkout_world : World :=
  mkWorld (<["/tmp/checkout" := ""]> ∅) {["/repo"]} "/ws" "/home/user"
    (fun p => "/real" ++ p) healthy_git review_grep true [].

(** The same checkout when the search tool fails. *)
Definition silent_world : World :=
  mkWorld ∅ {["/repo"]} "/ws" "/home/user" (fun p => "/real" ++ p)
    healthy_git no_grep true [].

(** * Properties *)

(** ** The editor dispatcher *)

(** C7: dispatching an empty file list is a no-op in every world, whatever
    the delivery mode: the world comes back unchanged, so the command
    descriptor file, the set of directories (the state directory among them)
    and the trace of started processes are as before. *)
Theorem open_in_vscode_empty_noop :
  forall (new_window : bool) (w : World),
    open_in_vscode [] new_window w = (w, inr tt)
    /\ (let w' := fst (open_in_vscode [] new_window w) in
        w_files w' !! VSCODE_COMMANDS_FILE w'
          = w_files w !! VSCODE_COMMANDS_FILE w
        /\ w_dirs w' = w_dirs w
        /\ w_trace w' = w_trace w).
Proof.
  intros nw w. split; [reflexivity|]. cbn. auto.
Qed.

(** ** Frame lemmas: which operations leave the world, or its trace, alone *)

Lemma read_text_frame (p : string) (w : World) :
  exists r, read_text p w = (w, r)
            /\ (forall e, r = inl e -> is_value_error e = false).
Proof.
  unfold read_text. destruct (w_files w !! p).
  - eexists; split; [reflexivity | congruence].
  - destruct (bool_decide (p ∈ w_dirs w)); eexists; split;
      try reflexivity; intros e [= <-]; reflexivity.
Qed.

Lemma get_vscode_mode_frame (w : World) :
  exists r, get_vscode_mode w = (w, r)
            /\ (forall e, r = inl e -> is_value_error e = false).
Proof.
  unfold get_vscode_mode, path_exists. unfold_m.
  destruct (bool_decide _ || bool_decide _).
  - destruct (read_text_frame (VSCODE_MODE_FILE w) w) as (r & -> & Hr).
    destruct r as [e | text].
    + eexists; split; [reflexivity | ]. intros e' [= <-]. now apply Hr.
    + destruct (_ || _); eexists; split; try reflexivity; congruence.
  - eexists; split; [reflexivity | congruence].
Qed.

Lemma open_in_vscode_trace (files : list string) (nw : bool) (w : World) :
  exists evs r,
    snd (open_in_vscode files nw w) = r
    /\ w_trace (fst (open_in_vscode files nw w)) = (w_trace w ++ evs)%list
    /\ (forall e, r = inl e -> is_value_error e = false).
Proof.
  destruct files as [| f fs].
  - exists [], (inr tt). cbn. rewrite app_nil_r. repeat split; congruence.
  - unfold open_in_vscode. unfold_m.
    destruct (get_vscode_mode_frame w) as (r & -> & Hr).
    destruct r as [e | mode].
    + exists [], (inl e). cbn. rewrite app_nil_r. repeat split.
      intros e' [= <-]. now apply Hr.
    + destruct (String.eqb mode "local").
      * destruct (w_code_spawns w).
        -- eexists [_], _. cbn. repeat split. congruence.
        -- exists [], (inl (FileNotFoundError "code")). cbn.
           rewrite app_nil_r. repeat split. intros e' [= <-]. reflexivity.
      * unfold mkdir_exist_ok, write_text.
        destruct (bool_decide (is_Some _)).
        -- eexists [], _. cbn. rewrite app_nil_r. repeat split.
           intros e' [= <-]. reflexivity.
        -- cbn. destruct (bool_decide _).
           ++ eexists [], _. cbn. rewrite app_nil_r. repeat split.
              intros e' [= <-]. reflexivity.
           ++ eexists [], _. cbn. rewrite app_nil_r. repeat split.
              congruence.
Qed.

(** ** The incremental strategy *)

Lemma bind_git {B} (args : list string) (cwd : string)
    (k : CompletedProcess -> M B) (w : World) :
  bind (git args cwd) k w
  = k (w_git w args cwd) (log_event (EvGit args cwd) w).
Proof. reflexivity. Qed.

(** The three ways [cmd_incremental] can go, by the outcome of its diff. *)
Lemma cmd_incremental_unfold (repo : string) (n : Z) (w : World) :
  let r := w_git w (diff_args n) repo in
  let w1 := log_event (EvGit (diff_args n) repo) w in
  let files := nonempty_lines (stdout r) in
  let b := w_git w branch_args repo in
  let w2 := log_event (EvGit branch_args repo) w1 in
  cmd_incremental repo n w =
    if nonzero (returncode r) then
      (w1, inr [("status", VStr "error");
                ("error", VStr (strip (stderr r)));
                ("repo", VStr repo)])
    else match files with
         | [] => (w1, inr [("status", VStr "nothing_to_review");
                           ("base", VStr ("HEAD~" ++ str_of_int n));
                           ("repo", VStr repo)])
         | _ :: _ =>
             match open_in_vscode (map (pjoin repo) files) true w2 with
             | (w3, inl e) => (w3, inl e)
             | (w3, inr _) =>
                 match get_vscode_mode w3 with
                 | (w4, inl e) => (w4, inl e)
                 | (w4, inr mode) =>
                     (w4, inr [("status", VStr "staged");
                               ("mode", VStr mode);
                               ("repo", VStr repo);
                               ("branch",
                                VStr (if nonzero (returncode b) then "unknown"
                                      else strip (stdout b)));
                               ("base", VStr ("HEAD~" ++ str_of_int n));
                               ("head", VStr "HEAD");
                               ("files", VList (map VStr files));
                               ("file_count",
                                VInt (Z.of_nat (length files)))])
                 end
             end
         end.
Proof.
  cbv zeta. unfold cmd_incremental, diff_args, branch_args.
  rewrite bind_git. destruct (nonzero _); [reflexivity|].
  destruct (nonempty_lines _); [reflexivity|].
  rewrite bind_git. reflexivity.
Qed.

(** ** The milestone strategy *)

(** The ways [cmd_milestone] can go, by the outcomes of its queries. *)
Lemma cmd_milestone_unfold (repo branch : string) (w : World) :
  let mbr := w_git w (merge_base_args branch) repo in
  let w1 := log_event (EvGit (merge_base_args branch) repo) w in
  let merge_base := strip (stdout mbr) in
  let files :=
    nonempty_lines (stdout (w_git w (diff_base_args merge_base) repo)) in
  let w2 := log_event (EvGit (diff_base_args merge_base) repo) w1 in
  let c := w_git w (count_args merge_base) repo in
  let w3 := log_event (EvGit (count_args merge_base) repo) w2 in
  let b := w_git w branch_args repo in
  let w4 := log_event (EvGit branch_args repo) w3 in
  cmd_milestone repo branch w =
    if nonzero (returncode mbr) then
      (w1, inr [("status", VStr "error");
                ("error", VStr ("Could not find merge base with " ++ branch));
                ("repo", VStr repo)])
    else
      match (if nonzero (returncode c) then Some 0%Z
             else int_of_str (strip (stdout c))) with
      | None =>
          (w3, inl (ValueError
                      ("invalid literal for int(): " ++ strip (stdout c))))
      | Some commit_count =>
          match files with
          | [] => (w4, inr [("status", VStr "nothing_to_review");
                            ("base", VStr branch);
                            ("merge_base", VStr (take 8 merge_base));
                            ("repo", VStr repo)])
          | _ :: _ =>
              match open_in_vscode (map (pjoin repo) files) true w4 with
              | (w5, inl e) => (w5, inl e)
              | (w5, inr _) =>
                  match get_vscode_mode w5 with
                  | (w6, inl e) => (w6, inl e)
                  | (w6, inr mode) =>
                      (w6, inr [("status", VStr "staged");
                                ("mode", VStr mode);
                                ("repo", VStr repo);
                                ("branch",
                                 VStr (if nonzero (returncode b)
                                       then "unknown"
                                       else strip (stdout b)));
                                ("base", VStr branch);
                                ("merge_base", VStr (take 8 merge_base));
                                ("files", VList (map VStr files));
                                ("file_count",
                                 VInt (Z.of_nat (length files)));
                                ("commit_count", VInt commit_count)])
                  end
              end
          end
      end.
Proof.
  cbv zeta.
  unfold cmd_milestone, merge_base_args, diff_base_args, count_args,
    branch_args.
  rewrite bind_git. destruct (nonzero _); [reflexivity|].
  rewrite bind_git, bind_git. cbn [w_git log_event].
  unfold py_int.
  destruct (nonzero (returncode (w_git w ["rev-list"; _; _] repo))).
  - unfold bind at 1. unfold ret at 1. rewrite bind_git.
    destruct (nonempty_lines _); reflexivity.
  - destruct (int_of_str _).
    + unfold bind at 1. unfold ret at 1. rewrite bind_git.
      destruct (nonempty_lines _); reflexivity.
    + reflexivity.
Qed.

(** [cmd_stack] always returns a record; it carries a merge base exactly
    when the merge-base query succeeds. *)
Lemma cmd_stack_unfold (repo branch : string) (w : World) :
  let mbr := w_git w (merge_base_args branch) repo in
  let merge_base := strip (stdout mbr) in
  exists w' d,
    cmd_stack repo branch w = (w', inr d)
    /\ dict_get "merge_base" d =
         (if nonzero (returncode mbr) then None
          else Some (VStr (take 8 merge_base)))
    /\ (exists evs,
          w_trace w' = (w_trace w
                        ++ EvGit (merge_base_args branch) repo :: evs)%list).
Proof.
  cbv zeta. unfold cmd_stack, merge_base_args.
  rewrite bind_git. destruct (nonzero _).
  - eexists _, _. split; [reflexivity|]. split; [reflexivity|].
    exists []. reflexivity.
  - rewrite !bind_git. eexists _, _. split; [reflexivity|].
    split; [reflexivity|]. cbn. eexists.
    rewrite <- !app_assoc. reflexivity.
Qed.

Lemma take_length (n : nat) (s : string) :
  String.length (take n s) = Nat.min n (String.length s).
Proof.
  revert s. induction n as [| n IH]; intros [| c s]; cbn; auto.
Qed.

(** ** Failures of the version-control binary *)

(** C1, as the code has it: a failing diff makes [cmd_incremental] return an
    error record with the adapter's stderr, stripped; a failing merge-base
    query makes [cmd_milestone] return an error record with its own message,
    not the adapter's; and once the diff has succeeded, a failing branch
    lookup or commit count never yields an error record: the branch becomes
    [unknown] and the count 0.  Nothing is stated about a failing diff inside
    [cmd_milestone]. *)
Theorem vcs_failures_as_handled :
  forall (repo branch : string) (n : Z) (w : World),
    let diff := w_git w (diff_args n) repo in
    let mbr := w_git w (merge_base_args branch) repo in
    let merge_base := strip (stdout mbr) in
    let mdiff := w_git w (diff_base_args merge_base) repo in
    (nonzero (returncode diff) = true ->
     cmd_incremental repo n w
     = (log_event (EvGit (diff_args n) repo) w,
        inr [("status", VStr "error");
             ("error", VStr (strip (stderr diff)));
             ("repo", VStr repo)]))
    /\ (nonzero (returncode mbr) = true ->
        cmd_milestone repo branch w
        = (log_event (EvGit (merge_base_args branch) repo) w,
           inr [("status", VStr "error");
                ("error", VStr ("Could not find merge base with " ++ branch));
                ("repo", VStr repo)]))
    /\ (forall w' d,
          nonzero (returncode diff) = false ->
          cmd_incremental repo n w = (w', inr d) ->
          status_of d <> Some "error"
          /\ (nonzero (returncode (w_git w branch_args repo)) = true ->
              status_of d = Some "staged" ->
              dict_get "branch" d = Some (VStr "unknown")))
    /\ (forall w' d,
          nonzero (returncode mbr) = false ->
          nonzero (returncode mdiff) = false ->
          cmd_milestone repo branch w = (w', inr d) ->
          status_of d <> Some "error"
          /\ (nonzero (returncode (w_git w branch_args repo)) = true ->
              status_of d = Some "staged" ->
              dict_get "branch" d = Some (VStr "unknown"))
          /\ (nonzero (returncode (w_git w (count_args merge_base) repo))
              = true ->
              status_of d = Some "staged" ->
              dict_get "commit_count" d = Some (VInt 0))).
Proof.
  intros repo branch n w. cbv zeta. repeat split.
  - intros H. rewrite cmd_incremental_unfold. cbv zeta. now rewrite H.
  - intros H. rewrite cmd_milestone_unfold. cbv zeta. now rewrite H.
  - revert H0. rewrite cmd_incremental_unfold. cbv zeta. rewrite H.
    destruct (nonempty_lines _); [intros [= <- <-]; discriminate|].
    destruct (open_in_vscode _ _ _) as [w3 [e|u]]; [discriminate|].
    destruct (get_vscode_mode _) as [w4 [e|mode]]; [discriminate|].
    intros [= <- <-]. discriminate.
  - revert H0. rewrite cmd_incremental_unfold. cbv zeta. rewrite H.
    destruct (nonempty_lines _); [intros [= <- <-]; discriminate|].
    destruct (open_in_vscode _ _ _) as [w3 [e|u]]; [discriminate|].
    destruct (get_vscode_mode _) as [w4 [e|mode]]; [discriminate|].
    intros [= <- <-] Hb _. cbn. now rewrite Hb.
  - revert H1. rewrite cmd_milestone_unfold. cbv zeta. rewrite H.
    destruct (if nonzero _ then _ else _); [|discriminate].
    destruct (nonempty_lines _); [intros [= <- <-]; discriminate|].
    destruct (open_in_vscode _ _ _) as [w3 [e|u]]; [discriminate|].
    destruct (get_vscode_mode _) as [w4 [e|mode]]; [discriminate|].
    intros [= <- <-]. discriminate.
  - revert H1. rewrite cmd_milestone_unfold. cbv zeta. rewrite H.
    destruct (if nonzero _ then _ else _); [|discriminate].
    destruct (nonempty_lines _); [intros [= <- <-]; discriminate|].
    destruct (open_in_vscode _ _ _) as [w3 [e|u]]; [discriminate|].
    destruct (get_vscode_mode _) as [w4 [e|mode]]; [discriminate|].
    intros [= <- <-] Hb _. cbn. now rewrite Hb.
  - revert H1. rewrite cmd_milestone_unfold. cbv zeta. rewrite H.
    intros Hd Hc. revert Hd. rewrite Hc.
    destruct (nonempty_lines _); [intros [= <- <-]; discriminate|].
    destruct (open_in_vscode _ _ _) as [w3 [e|u]]; [discriminate|].
    destruct (get_vscode_mode _) as [w4 [e|mode]]; [discriminate|].
    intros [= <- <-] _. reflexivity.
Qed.

Lemma vcs_failures_as_handled_witness :
  cmd_incremental "/repo" (-1) healthy_world
  = (log_event (EvGit (diff_args (-1)) "/repo") healthy_world,
     inr [("status", VStr "error");
          ("error", VStr "fatal: ambiguous argument 'HEAD~-1'");
          ("repo", VStr "/repo")])
  /\ cmd_milestone "/repo" "dev" healthy_world
     = (log_event (EvGit (merge_base_args "dev") "/repo") healthy_world,
        inr [("status", VStr "error");
             ("error", VStr "Could not find merge base with dev");
             ("repo", VStr "/repo")]).
Proof.
  destruct (vcs_failures_as_handled "/repo" "dev" (-1) healthy_world)
    as (Hinc & Hmil & _).
  split; [apply Hinc | apply Hmil]; reflexivity.
Defined.

(** C1 as stated fails: a failing merge-base query gives an error record
    whose text is not the adapter's stderr, and a failing branch lookup gives
    a [staged] record. *)
Lemma vcs_failure_counterexample :
  w_git healthy_world (merge_base_args "dev") "/repo"
  = mkCP 128 "" (line "fatal: Not a valid object name dev")
  /\ snd (cmd_milestone "/repo" "dev" healthy_world)
     = inr [("status", VStr "error");
            ("error", VStr "Could not find merge base with dev");
            ("repo", VStr "/repo")]
  /\ w_git old_git_world branch_args "/repo"
     = mkCP 129 "" (line "error: unknown option `show-current'")
  /\ snd (cmd_incremental "/repo" 1 old_git_world)
     = inr [("status", VStr "staged");
            ("mode", VStr "remote");
            ("repo", VStr "/repo");
            ("branch", VStr "unknown");
            ("base", VStr "HEAD~1");
            ("head", VStr "HEAD");
            ("files", VList [VStr "a.py"; VStr "docs/b.md"]);
            ("file_count", VInt 2)].
Proof. repeat split; vm_compute; reflexivity. Qed.

(** What [cmd_milestone] does when its diff fails: the exit code is not
    looked at, the empty output reads as an empty file list. *)
Lemma milestone_failing_diff_unchecked :
  w_git broken_world (diff_base_args "0123456789abcdef") "/repo"
  = mkCP 128 "" (line "fatal: bad object 0123456789abcdef")
  /\ snd (cmd_milestone "/repo" "main" broken_world)
     = inr [("status", VStr "nothing_to_review");
            ("base", VStr "main");
            ("merge_base", VStr "01234567");
            ("repo", VStr "/repo")].
Proof. split; vm_compute; reflexivity. Qed.

(** ** The range of the incremental strategy *)

(** C3, as the code has it: for every integer [n], below 1 or not,
    [cmd_incremental] validates nothing.  Its first action is the diff
    against [HEAD~n]; it never raises [ValueError]; and it reports an error
    exactly when that diff fails. *)
Theorem incremental_range_unchecked :
  forall (repo : string) (n : Z) (w : World),
    let diff := w_git w (diff_args n) repo in
    (exists evs,
       w_trace (fst (cmd_incremental repo n w))
       = (w_trace w ++ EvGit (diff_args n) repo :: evs)%list)
    /\ (forall e, snd (cmd_incremental repo n w) = inl e ->
                  is_value_error e = false)
    /\ (forall d, snd (cmd_incremental repo n w) = inr d ->
                  (status_of d = Some "error"
                   <-> nonzero (returncode diff) = true)).
Proof.
  intros repo n w. cbv zeta. rewrite cmd_incremental_unfold. cbv zeta.
  destruct (nonzero _).
  { split; [exists []; reflexivity|]. split; [discriminate|].
    intros d [= <-]. split; reflexivity. }
  destruct (nonempty_lines _) as [| f fs].
  { split; [exists []; reflexivity|]. split; [discriminate|].
    intros d [= <-]. split; discriminate. }
  set (w2 := log_event _ (log_event _ w)).
  destruct (open_in_vscode_trace (map (pjoin repo) (f :: fs)) true w2)
    as (evs & r & Hr & Htr & Hexn).
  destruct (open_in_vscode _ _ _) as [w3 [e | u]]; cbn [fst snd] in *.
  { split.
    - rewrite Htr. subst w2. cbn. rewrite <- !app_assoc. eexists.
      reflexivity.
    - split; [|discriminate]. intros e' [= <-]. apply Hexn. now subst r. }
  destruct (get_vscode_mode_frame w3) as (m & -> & Hm).
  destruct m as [e | mode]; cbn [fst snd].
  - split.
    + rewrite Htr. subst w2. cbn. rewrite <- !app_assoc. eexists.
      reflexivity.
    + split; [|discriminate]. intros e' [= <-]. now apply Hm.
  - split.
    + rewrite Htr. subst w2. cbn. rewrite <- !app_assoc. eexists.
      reflexivity.
    + split; [discriminate|]. intros d [= <-]. split; discriminate.
Qed.

(** C3 as stated fails: with [n = 0] the diff against [HEAD~0] is run and
    its outcome reported; with [n = -1] the binary is asked about [HEAD~-1]
    and the error is the one it gives. *)
Lemma incremental_range_counterexample :
  (0 < 1)%Z
  /\ cmd_incremental "/repo" 0 healthy_world
     = (log_event (EvGit ["diff"; "--name-only"; "HEAD~0"] "/repo")
          healthy_world,
        inr [("status", VStr "nothing_to_review");
             ("base", VStr "HEAD~0");
             ("repo", VStr "/repo")])
  /\ (-1 < 1)%Z
  /\ cmd_incremental "/repo" (-1) healthy_world
     = (log_event (EvGit ["diff"; "--name-only"; "HEAD~-1"] "/repo")
          healthy_world,
        inr [("status", VStr "error");
             ("error", VStr "fatal: ambiguous argument 'HEAD~-1'");
             ("repo", VStr "/repo")]).
Proof. repeat split; vm_compute; reflexivity. Qed.

(** ** Result records of the two strategies *)

(** C4: a record returned by [cmd_incremental] or [cmd_milestone] with status
    [staged] carries a non-empty file list (and its length as
    [file_count]); one with status [nothing_to_review] carries no file at
    all, and indeed has no [files] entry. *)
Theorem diff_result_files_invariant :
  forall (repo branch : string) (n : Z) (w w' : World) (d : dict),
    cmd_incremental repo n w = (w', inr d)
    \/ cmd_milestone repo branch w = (w', inr d) ->
    (status_of d = Some "staged" ->
     files_of d <> []
     /\ dict_get "file_count" d
        = Some (VInt (Z.of_nat (length (files_of d)))))
    /\ (status_of d = Some "nothing_to_review" ->
        files_of d = [] /\ dict_get "files" d = None).
Proof.
  intros repo branch n w w' d [H | H]; revert H.
  - rewrite cmd_incremental_unfold. cbv zeta.
    destruct (nonzero _);
      [intros [= <- <-]; split; discriminate|].
    destruct (nonempty_lines _) as [| f fs].
    { intros [= <- <-]. split; [discriminate|]. intros _. now split. }
    destruct (open_in_vscode _ _ _) as [w3 [e|u]]; [discriminate|].
    destruct (get_vscode_mode _) as [w4 [e|mode]]; [discriminate|].
    intros [= <- <-]. split; [|discriminate]. intros _.
    unfold files_of. cbn [dict_get String.eqb Ascii.eqb Bool.eqb].
    split; [discriminate|]. cbn [length]. now rewrite length_map.
  - rewrite cmd_milestone_unfold. cbv zeta.
    destruct (nonzero _);
      [intros [= <- <-]; split; discriminate|].
    destruct (if nonzero _ then _ else _); [|discriminate].
    destruct (nonempty_lines _) as [| f fs].
    { intros [= <- <-]. split; [discriminate|]. intros _. now split. }
    destruct (open_in_vscode _ _ _) as [w3 [e|u]]; [discriminate|].
    destruct (get_vscode_mode _) as [w4 [e|mode]]; [discriminate|].
    intros [= <- <-]. split; [|discriminate]. intros _.
    unfold files_of. cbn [dict_get String.eqb Ascii.eqb Bool.eqb].
    split; [discriminate|]. cbn [length]. now rewrite length_map.
Qed.

Lemma diff_result_files_invariant_witness :
  exists w' d,
    cmd_incremental "/repo" 1 healthy_world = (w', inr d)
    /\ status_of d = Some "staged"
    /\ files_of d = [VStr "a.py"; VStr "docs/b.md"]
    /\ dict_get "file_count" d = Some (VInt 2).
Proof.
  eexists _, _. split; [vm_compute; reflexivity|].
  split; [reflexivity|]. split; [reflexivity|].
  refine (proj2 (proj1 (diff_result_files_invariant "/repo" "main" 1
                          healthy_world _ _ (or_introl _)) _)).
  - vm_compute. reflexivity.
  - reflexivity.
Defined.

(** C5: when the merge base is found, the diff lists no file and the commit
    count is computable (the count query fails, which reads as 0, or prints
    an integer), [cmd_milestone] returns [nothing_to_review] with the merge
    base cut to its first 8 characters and without a [commit_count] entry,
    although the count query has been run. *)
Theorem milestone_empty_omits_commit_count :
  forall (repo branch : string) (w : World),
    let mbr := w_git w (merge_base_args branch) repo in
    let merge_base := strip (stdout mbr) in
    let c := w_git w (count_args merge_base) repo in
    nonzero (returncode mbr) = false ->
    nonempty_lines (stdout (w_git w (diff_base_args merge_base) repo)) = [] ->
    (nonzero (returncode c) = true
     \/ exists k, int_of_str (strip (stdout c)) = Some k) ->
    exists w' d,
      cmd_milestone repo branch w = (w', inr d)
      /\ status_of d = Some "nothing_to_review"
      /\ dict_get "merge_base" d = Some (VStr (take 8 merge_base))
      /\ String.length (take 8 merge_base)
         = Nat.min 8 (String.length merge_base)
      /\ dict_get "commit_count" d = None
      /\ In (EvGit (count_args merge_base) repo) (w_trace w').
Proof.
  intros repo branch w mbr merge_base c Hmb Hfiles Hcount.
  rewrite cmd_milestone_unfold. cbv zeta.
  fold mbr. rewrite Hmb. fold merge_base. rewrite Hfiles. fold c.
  assert (exists k, (if nonzero (returncode c) then Some 0%Z
                     else int_of_str (strip (stdout c))) = Some k)
    as [k ->].
  { destruct Hcount as [-> | [k Hk]]; [exists 0%Z; reflexivity|].
    destruct (nonzero (returncode c));
      [exists 0%Z; reflexivity | exists k; exact Hk]. }
  eexists _, _. split; [reflexivity|].
  repeat split; try reflexivity.
  - apply take_length.
  - cbn. rewrite !in_app_iff. left. right. now left.
Qed.

Lemma milestone_empty_omits_commit_count_witness :
  exists w' d,
    cmd_milestone "/repo" "same" broken_world = (w', inr d)
    /\ status_of d = Some "nothing_to_review"
    /\ dict_get "merge_base" d = Some (VStr "89abcdef")
    /\ dict_get "commit_count" d = None.
Proof.
  destruct (milestone_empty_omits_commit_count "/repo" "same" broken_world)
    as (w' & d & H & Hs & Hm & _ & Hc & _).
  - reflexivity.
  - reflexivity.
  - right. exists 0%Z. reflexivity.
  - exists w', d. auto.
Defined.

(** C8: when the adapter gives the same answer to the merge-base query for
    the same HEAD and branch, the records returned by [cmd_milestone] and
    [cmd_stack] carry the same [merge_base] entry: the first 8 characters of
    the stripped answer when the query succeeds, no entry when it fails. *)
Theorem milestone_stack_same_merge_base :
  forall (repo branch : string) (w1 w2 w1' w2' : World) (d1 d2 : dict),
    w_git w1 (merge_base_args branch) repo
    = w_git w2 (merge_base_args branch) repo ->
    cmd_milestone repo branch w1 = (w1', inr d1) ->
    cmd_stack repo branch w2 = (w2', inr d2) ->
    dict_get "merge_base" d1 = dict_get "merge_base" d2
    /\ dict_get "merge_base" d1
       = (let mbr := w_git w1 (merge_base_args branch) repo in
          if nonzero (returncode mbr) then None
          else Some (VStr (take 8 (strip (stdout mbr))))).
Proof.
  intros repo branch w1 w2 w1' w2' d1 d2 Hsame Hm Hs.
  destruct (cmd_stack_unfold repo branch w2) as (w2'' & d2' & Hs' & Hmb & _).
  assert (d2' = d2) as -> by congruence.
  rewrite Hmb, <- Hsame. cbv zeta.
  assert (dict_get "merge_base" d1 =
          if nonzero (returncode (w_git w1 (merge_base_args branch) repo))
          then None
          else Some (VStr (take 8 (strip (stdout
                 (w_git w1 (merge_base_args branch) repo)))))) as ->;
    [|split; reflexivity].
  clear Hs Hs' Hmb Hsame. revert Hm. rewrite cmd_milestone_unfold. cbv zeta.
  destruct (nonzero _); [intros [= <- <-]; reflexivity|].
  destruct (if nonzero _ then _ else _); [|discriminate].
  destruct (nonempty_lines _) as [| f fs]; [intros [= <- <-]; reflexivity|].
  destruct (open_in_vscode _ _ _) as [w3 [e|u]]; [discriminate|].
  destruct (get_vscode_mode _) as [w4 [e|mode]]; [discriminate|].
  intros [= <- <-]. reflexivity.
Qed.

Lemma milestone_stack_same_merge_base_witness :
  exists w1' w2' d1 d2,
    cmd_milestone "/repo" "main" healthy_world = (w1', inr d1)
    /\ cmd_stack "/repo" "main" old_git_world = (w2', inr d2)
    /\ dict_get "merge_base" d1 = Some (VStr "01234567")
    /\ dict_get "merge_base" d1 = dict_get "merge_base" d2.
Proof.
  eexists _, _, _, _. split; [vm_compute; reflexivity|].
  split; [vm_compute; reflexivity|]. split; [reflexivity|].
  refine (proj1 (milestone_stack_same_merge_base "/repo" "main"
                   healthy_world old_git_world _ _ _ _ _ _ _));
    vm_compute; reflexivity.
Defined.

(** ** The loop of the comment scanner *)

Lemma digit_not_space (c : ascii) : is_digit c = true -> is_space c = false.
Proof.
  destruct c as [[] [] [] [] [] [] [] []]; vm_compute; congruence.
Qed.

Lemma all_digits_rstrip (s : string) : all_digits s = true -> rstrip s = s.
Proof.
  induction s as [| c s IH]; [reflexivity|]. cbn.
  intros [Hc Hs]%andb_prop. rewrite (IH Hs).
  destruct s; [| reflexivity]. now rewrite (digit_not_space c Hc).
Qed.

Lemma all_digits_strip (s : string) : all_digits s = true -> strip s = s.
Proof.
  intros H. unfold strip. rewrite (all_digits_rstrip s H).
  destruct s as [| c s]; [reflexivity|]. cbn in *.
  apply andb_prop in H as [Hc _]. now rewrite (digit_not_space c Hc).
Qed.

Lemma int_digits_all_digits (s : string) :
  all_digits s = true -> forall acc, exists n, int_digits acc false s = Some n.
Proof.
  induction s as [| c s IH]; intros H acc; [now exists acc|].
  cbn in *. apply andb_prop in H as [Hc Hs]. rewrite Hc. now apply IH.
Qed.

Lemma digit_not_sign (c : ascii) (r : string) :
  is_digit c = true ->
  match String c r with
  | String "-" r' => option_map Z.opp (int_unsigned r')
  | String "+" r' => int_unsigned r'
  | r' => int_unsigned r'
  end = int_unsigned (String c r).
Proof.
  destruct c as [[] [] [] [] [] [] [] []]; vm_compute; congruence.
Qed.

(** [int] accepts every non-empty run of decimal digits. *)
Lemma int_of_str_digits (d : string) :
  nonempty d = true -> all_digits d = true ->
  exists n, int_of_str d = Some n.
Proof.
  intros Hne Hd. unfold int_of_str. rewrite (all_digits_strip d Hd).
  destruct d as [| c r]; [discriminate|].
  pose proof Hd as Hd'. cbn in Hd'. apply andb_prop in Hd' as [Hc _].
  rewrite (digit_not_sign c r Hc). unfold int_unsigned. rewrite Hc.
  now apply int_digits_all_digits.
Qed.

Lemma match_grep_line_digits (line fp d text : string) :
  match_grep_line line = Some (fp, d, text) ->
  nonempty d = true /\ all_digits d = true.
Proof.
  unfold match_grep_line.
  destruct (span_until ":" line) as [[p r]|]; [|discriminate].
  destruct (span_until ":" r) as [[d' t]|]; [|discriminate].
  destruct (nonempty p); [|discriminate].
  destruct (nonempty d') eqn:Hne; [|discriminate].
  destruct (all_digits d') eqn:Hd; [|discriminate].
  cbn. intros [= _ <- _]. now split.
Qed.

(** One round of the loop appends at most one record and never raises. *)
Lemma scan_line_total (repo line : string) :
  exists recs, scan_line repo line = inr recs /\ length recs <= 1.
Proof.
  unfold scan_line. destruct (negb (nonempty line)); [exists []; auto|].
  destruct (match_grep_line line) as [[[fp d] text]|] eqn:Hm;
    [|exists []; auto].
  destruct (match_grep_line_digits _ _ _ _ Hm) as [Hne Hd].
  destruct (int_of_str_digits d Hne Hd) as [n ->].
  destruct (re_search_marker "RVWY:" _); [eexists; split; [reflexivity|auto]|].
  destruct (re_search_marker "RVW:" _); eexists; split;
    try reflexivity; cbn; auto.
Qed.

Lemma scan_lines_total (repo : string) (lines : list string) :
  forall comments, exists out, scan_lines repo comments lines = inr out.
Proof.
  induction lines as [| l ls IH]; intros comments; [now exists comments|].
  cbn. destruct (scan_line_total repo l) as (recs & -> & _). apply IH.
Qed.

(** ** The alias table *)

Example parse_directory_map_sample :
  exists aliases,
    snd (parse_directory_map workspace_world) = inr aliases
    /\ map_to_list aliases
       = [("iree", "/src/iree-next"); ("llvm", "/src/llvm-project")].
Proof. eexists. split; vm_compute; reflexivity. Qed.

Example get_active_task_repos_sample :
  snd (get_active_task_repos workspace_world) = inr ["llvm"; "iree"].
Proof. vm_compute. reflexivity. Qed.

(** Inside the table, a row line stores its pair and the loop goes on. *)
Lemma parse_rows_row (ln a p : string) (m : gmap string string)
    (rest : list string) :
  table_row ln = Some (a, p) ->
  parse_rows true m (ln :: rest) = parse_rows true (<[a := p]> m) rest.
Proof.
  unfold table_row, row_entry. cbn [parse_rows].
  destruct (contains "| Alias |" ln); [discriminate|].
  destruct (startswith "|---" ln); [discriminate|].
  destruct (negb (startswith "|" ln)); [discriminate|].
  destruct (3 <=? _)%nat; [|discriminate].
  destruct (_ && _); [|discriminate].
  now intros [= -> ->].
Qed.

(** The header row opens the table. *)
Lemma parse_rows_header (h : string) (b : bool) (m : gmap string string)
    (tl : list string) :
  contains "| Alias |" h = true ->
  parse_rows b m (h :: tl) = parse_rows true m tl.
Proof. intros H. cbn [parse_rows]. now rewrite H. Qed.

(** Before the header, lines are skipped. *)
Lemma parse_rows_before (before tl : list string) (m : gmap string string) :
  forallb (fun l => negb (contains "| Alias |" l)) before = true ->
  parse_rows false m (before ++ tl) = parse_rows false m tl.
Proof.
  induction before as [| l ls IH]; [reflexivity|].
  cbn. intros [Hl Hls]%andb_prop.
  destruct (contains "| Alias |" l); [discriminate|]. now apply IH.
Qed.

(** Lines that do not end the table lead to the rest of the table. *)
Lemma parse_rows_mid (mid tl : list string) :
  forallb continues_table mid = true ->
  forall m, exists m', parse_rows true m (mid ++ tl) = parse_rows true m' tl.
Proof.
  induction mid as [| l ls IH]; intros H m; [now exists m|].
  cbn in H. apply andb_prop in H as [Hl Hls].
  cbn [app parse_rows]. unfold continues_table in Hl.
  destruct (contains "| Alias |" l); [now apply IH|].
  cbn in Hl. rewrite Hl. cbn [negb].
  destruct (startswith "|---" l); [now apply IH|].
  destruct (3 <=? _)%nat; [|now apply IH].
  destruct (_ && _); now apply IH.
Qed.

(** An entry survives every later line that is not a row for its alias. *)
Lemma parse_rows_keeps (a p : string) (rest : list string) :
  forallb (fun l => negb (row_for a l)) rest = true ->
  forall (b : bool) (m : gmap string string),
    m !! a = Some p -> parse_rows b m rest !! a = Some p.
Proof.
  induction rest as [| l ls IH]; intros H b m Hm; [exact Hm|].
  cbn in H. apply andb_prop in H as [Hl Hls].
  cbn [parse_rows]. unfold row_for, table_row, row_entry in Hl.
  destruct (contains "| Alias |" l); [now apply IH|].
  destruct b; [|now apply IH].
  destruct (startswith "|---" l); [now apply IH|].
  destruct (negb (startswith "|" l)); [exact Hm|].
  destruct (3 <=? _)%nat; [|now apply IH].
  destruct (_ && _); [|now apply IH].
  apply IH; [exact Hls|].
  rewrite lookup_insert_ne; [exact Hm|].
  intros E. rewrite E, String.eqb_refl in Hl. discriminate.
Qed.

Lemma table_row_alias_nonempty (ln a p : string) :
  table_row ln = Some (a, p) -> nonempty a = true.
Proof.
  unfold table_row, row_entry.
  destruct (contains "| Alias |" ln); [discriminate|].
  destruct (startswith "|---" ln); [discriminate|].
  destruct (negb (startswith "|" ln)); [discriminate|].
  destruct (3 <=? _)%nat; [|discriminate].
  destruct (nonempty (nth 1 _ _)) eqn:E; [|discriminate].
  destruct (_ && _); [|discriminate].
  now intros [= <- _].
Qed.

Lemma parse_directory_map_read (w : World) (content : string) :
  w_files w !! DIRECTORY_MAP_FILE w = Some content ->
  parse_directory_map w = (w, inr (parse_rows false ∅ (split NL content))).
Proof.
  intros H. unfold parse_directory_map, path_exists, read_text. unfold_m.
  cbn -[DIRECTORY_MAP_FILE]. rewrite H.
  rewrite bool_decide_eq_true_2 by (eexists; reflexivity).
  cbn -[DIRECTORY_MAP_FILE]. now rewrite H.
Qed.

(** C10: when the alias table document has, in its table, two rows for the
    same alias (with any lines that do not end the table before and between
    them) and no row for that alias after the second one, the parsed table
    maps the alias to the second row's path, and resolving the alias returns
    that path. *)
Theorem parse_directory_map_last_row_wins :
  forall (w : World) (content : string)
         (before sep mid rest : list string)
         (header row1 row2 a p1 p2 : string),
    w_files w !! DIRECTORY_MAP_FILE w = Some content ->
    split NL content
    = (before ++ header :: sep ++ row1 :: mid ++ row2 :: rest)%list ->
    forallb (fun l => negb (contains "| Alias |" l)) before = true ->
    contains "| Alias |" header = true ->
    forallb continues_table sep = true ->
    table_row row1 = Some (a, p1) ->
    forallb continues_table mid = true ->
    table_row row2 = Some (a, p2) ->
    forallb (fun l => negb (row_for a l)) rest = true ->
    exists aliases,
      parse_directory_map w = (w, inr aliases)
      /\ aliases !! a = Some p2
      /\ resolve_repo (Some a) w = (w, inr p2).
Proof.
  intros w content before sep mid rest header row1 row2 a p1 p2
    Hfile Hsplit Hbefore Hheader Hsep Hrow1 Hmid Hrow2 Hrest.
  pose proof (parse_directory_map_read w content Hfile) as Hparse.
  set (aliases := parse_rows false ∅ (split NL content)) in *.
  assert (aliases !! a = Some p2) as Hlook.
  { subst aliases. rewrite Hsplit, (parse_rows_before _ _ _ Hbefore).
    rewrite (parse_rows_header _ _ _ _ Hheader).
    destruct (parse_rows_mid sep (row1 :: mid ++ row2 :: rest) Hsep ∅)
      as [m0 ->].
    rewrite (parse_rows_row _ _ _ _ _ Hrow1).
    destruct (parse_rows_mid mid (row2 :: rest) Hmid (<[a:=p1]> m0))
      as [m' ->].
    rewrite (parse_rows_row _ _ _ _ _ Hrow2).
    apply parse_rows_keeps; [exact Hrest|]. apply lookup_insert_eq. }
  exists aliases. split; [exact Hparse|]. split; [exact Hlook|].
  pose proof (table_row_alias_nonempty _ _ _ Hrow1) as Hne.
  unfold resolve_repo. unfold bind at 1. rewrite Hparse.
  destruct a as [| c a']; [discriminate|]. now rewrite Hlook.
Qed.

Lemma parse_directory_map_last_row_wins_witness :
  exists aliases,
    parse_directory_map workspace_world = (workspace_world, inr aliases)
    /\ aliases !! "iree" = Some "/src/iree-next"
    /\ resolve_repo (Some "iree") workspace_world
       = (workspace_world, inr "/src/iree-next").
Proof.
  apply (parse_directory_map_last_row_wins workspace_world sample_map_doc
           ["# Directory map"; ""]
           ["|-------|------|-------|"]
           ["| llvm | /src/llvm-project | |"]
           [""; "| late | /src/late | after the table |"; ""]
           "| Alias | Path | Notes |"
           "| iree | /src/iree | main checkout |"
           "| iree | /src/iree-next | newer checkout |"
           "iree" "/src/iree" "/src/iree-next");
    vm_compute; reflexivity.
Defined.

(** ** Alias resolution *)

Lemma bind_frame {A B} (m : M A) (k : A -> M B) (w : World) (r : exn + A) :
  m w = (w, r) ->
  bind m k w = match r with inl e => (w, inl e) | inr a => k a w end.
Proof. intros H. unfold bind. rewrite H. now destruct r. Qed.

Lemma path_exists_frame (p : string) (w : World) :
  path_exists p w = (w, inr (exists_in w p)).
Proof. reflexivity. Qed.

(** Parsing the alias table reads the world and raises no [ValueError]. *)
Lemma parse_directory_map_frame (w : World) :
  exists r, parse_directory_map w = (w, r)
            /\ (forall e, r = inl e -> is_value_error e = false).
Proof.
  unfold parse_directory_map.
  rewrite (bind_frame _ _ w (inr (DIRECTORY_MAP_FILE w))) by reflexivity.
  rewrite (bind_frame _ _ w _ (path_exists_frame _ w)).
  destruct (negb _); [eexists; split; [reflexivity | congruence]|].
  destruct (read_text_frame (DIRECTORY_MAP_FILE w) w) as (r & Hr & Hexn).
  rewrite (bind_frame _ _ w _ Hr).
  destruct r as [e | content]; eexists; split; try reflexivity.
  - intros e' [= <-]. now apply Hexn.
  - congruence.
Qed.

(** So does reading the active task's repositories. *)
Lemma get_active_task_repos_frame (w : World) :
  exists r, get_active_task_repos w = (w, r)
            /\ (forall e, r = inl e -> is_value_error e = false).
Proof.
  unfold get_active_task_repos.
  rewrite (bind_frame _ _ w (inr (ACTIVE_TASK_FILE w))) by reflexivity.
  rewrite (bind_frame _ _ w _ (path_exists_frame _ w)).
  destruct (negb _); [eexists; split; [reflexivity | congruence]|].
  destruct (read_text_frame (ACTIVE_TASK_FILE w) w) as (r & Hr & Hexn).
  rewrite (bind_frame _ _ w _ Hr).
  destruct r as [e | text].
  { eexists; split; [reflexivity|]. intros e' [= <-]. now apply Hexn. }
  rewrite (bind_frame _ _ w (inr (w_workspace w))) by reflexivity.
  rewrite (bind_frame _ _ w _ (path_exists_frame _ w)).
  destruct (negb _); [eexists; split; [reflexivity | congruence]|].
  match goal with
  | |- context [read_text ?p] =>
      destruct (read_text_frame p w) as (r & Hr' & Hexn');
      rewrite (bind_frame _ _ w _ Hr')
  end.
  destruct r as [e | content].
  { eexists; split; [reflexivity|]. intros e' [= <-]. now apply Hexn'. }
  destruct (negb _); [eexists; split; [reflexivity | congruence]|].
  destruct (find_from _ _ _); eexists; split; try reflexivity; congruence.
Qed.

(** C6: with the alias table read as [aliases], [resolve_repo] goes through
    its five cases in order and leaves the world as it is: (1) a non-empty
    alias found in the table gives its path; (2) otherwise, if it names an
    existing path, that path canonicalized; (3) otherwise [ValueError]
    (unknown alias); (4) with no alias, or an empty one, the first repository
    of the active task if it is in the table; (5) otherwise the current
    directory.  It raises [ValueError] exactly in case (3). *)
Theorem resolve_repo_order :
  forall (w : World) (aliases : gmap string string) (alias : option string),
    parse_directory_map w = (w, inr aliases) ->
    let supplied :=
      match alias with Some a => nonempty a | None => false end in
    (forall a p, alias = Some a -> nonempty a = true ->
                 aliases !! a = Some p ->
                 resolve_repo alias w = (w, inr p))
    /\ (forall a, alias = Some a -> nonempty a = true ->
                  aliases !! a = None -> exists_in w a = true ->
                  resolve_repo alias w = (w, inr (w_realpath w a)))
    /\ (forall a, alias = Some a -> nonempty a = true ->
                  aliases !! a = None -> exists_in w a = false ->
                  resolve_repo alias w
                  = (w, inl (ValueError ("Unknown repo alias: " ++ a))))
    /\ (forall first others p,
          supplied = false ->
          get_active_task_repos w = (w, inr (first :: others)) ->
          aliases !! first = Some p ->
          resolve_repo alias w = (w, inr p))
    /\ (forall repos,
          supplied = false ->
          get_active_task_repos w = (w, inr repos) ->
          match repos with
          | [] => True
          | first :: _ => aliases !! first = None
          end ->
          resolve_repo alias w = (w, inr (w_cwd w)))
    /\ ((exists msg, snd (resolve_repo alias w) = inl (ValueError msg))
        <-> (exists a, alias = Some a /\ nonempty a = true
                       /\ aliases !! a = None /\ exists_in w a = false)).
Proof.
  intros w aliases alias Hmap supplied.
  assert (forall a, alias = Some a -> nonempty a = true ->
            resolve_repo alias w =
              match aliases !! a with
              | Some p => (w, inr p)
              | None =>
                  if exists_in w a then (w, inr (w_realpath w a))
                  else (w, inl (ValueError ("Unknown repo alias: " ++ a)))
              end) as Hsup.
  { intros a -> Hne. unfold resolve_repo.
    rewrite (bind_frame _ _ w _ Hmap).
    destruct a as [| c a']; [discriminate|].
    destruct (aliases !! String c a'); [reflexivity|].
    rewrite (bind_frame _ _ w _ (path_exists_frame _ w)).
    destruct (exists_in w _); reflexivity. }
  assert (supplied = false ->
          resolve_repo alias w =
            match get_active_task_repos w with
            | (w', inl e) => (w', inl e)
            | (w', inr repos) =>
                match repos with
                | first :: _ =>
                    match aliases !! first with
                    | Some p => (w', inr p)
                    | None => (w', inr (w_cwd w'))
                    end
                | [] => (w', inr (w_cwd w'))
                end
            end) as Hnone.
  { intros Hs. unfold resolve_repo. rewrite (bind_frame _ _ w _ Hmap).
    assert (forall k : string -> M string,
              match alias with
              | Some (String c a' as a) => k a
              | _ =>
                  task_repos <- get_active_task_repos ;;
                  match task_repos with
                  | first_repo :: _ =>
                      match aliases !! first_repo with
                      | Some path => ret path
                      | None => gets w_cwd
                      end
                  | [] => gets w_cwd
                  end
              end
              = (task_repos <- get_active_task_repos ;;
                 match task_repos with
                 | first_repo :: _ =>
                     match aliases !! first_repo with
                     | Some path => ret path
                     | None => gets w_cwd
                     end
                 | [] => gets w_cwd
                 end)) as ->.
    { intros k. subst supplied. destruct alias as [[| c a'] |];
        try reflexivity. discriminate. }
    unfold bind. destruct (get_active_task_repos w) as [w' [e | repos]];
      [reflexivity|].
    destruct repos as [| first others]; [reflexivity|].
    destruct (aliases !! first); reflexivity. }
  repeat split.
  - intros a p Ha Hne Hl. rewrite (Hsup a Ha Hne). now rewrite Hl.
  - intros a Ha Hne Hl Hex. rewrite (Hsup a Ha Hne). now rewrite Hl, Hex.
  - intros a Ha Hne Hl Hex. rewrite (Hsup a Ha Hne). now rewrite Hl, Hex.
  - intros first others p Hs Ht Hl. rewrite (Hnone Hs), Ht. now rewrite Hl.
  - intros repos Hs Ht Hl. rewrite (Hnone Hs), Ht.
    destruct repos as [| first others]; [reflexivity|]. now rewrite Hl.
  - intros [msg Hmsg].
    destruct (supplied) eqn:Hs.
    + subst supplied. destruct alias as [a |]; [|discriminate].
      exists a. rewrite (Hsup a eq_refl Hs) in Hmsg.
      destruct (aliases !! a); [discriminate|].
      destruct (exists_in w a); [discriminate|]. auto.
    + exfalso. rewrite (Hnone eq_refl) in Hmsg.
      destruct (get_active_task_repos_frame w) as (r & Hr & Hexn).
      rewrite Hr in Hmsg. destruct r as [e | repos].
      * cbn in Hmsg. injection Hmsg as ->.
        specialize (Hexn _ eq_refl). discriminate.
      * destruct repos as [| first others]; [discriminate|].
        destruct (aliases !! first); discriminate.
  - intros (a & Ha & Hne & Hl & Hex). rewrite (Hsup a Ha Hne), Hl, Hex.
    eexists. reflexivity.
Qed.

Lemma resolve_repo_order_witness :
  resolve_repo (Some "llvm") workspace_world
  = (workspace_world, inr "/src/llvm-project")
  /\ resolve_repo (Some "/tmp/checkout") workspace_world
     = (workspace_world, inr "/real/tmp/checkout")
  /\ resolve_repo (Some "nope") workspace_world
     = (workspace_world, inl (ValueError "Unknown repo alias: nope"))
  /\ resolve_repo None workspace_world
     = (workspace_world, inr "/src/llvm-project")
  /\ resolve_repo (Some "") idle_world = (idle_world, inr "/home/user").
Proof.
  assert (parse_directory_map workspace_world
          = (workspace_world,
             inr (parse_rows false ∅ (split NL sample_map_doc)))) as Hw
    by (vm_compute; reflexivity).
  assert (parse_directory_map idle_world
          = (idle_world,
             inr (parse_rows false ∅ (split NL sample_map_doc)))) as Hi
    by (vm_compute; reflexivity).
  split.
  { apply (proj1 (resolve_repo_order workspace_world _ (Some "llvm") Hw)
             "llvm" "/src/llvm-project"); vm_compute; reflexivity. }
  split.
  { apply (proj1 (proj2 (resolve_repo_order workspace_world _
                           (Some "/tmp/checkout") Hw)) "/tmp/checkout");
      vm_compute; reflexivity. }
  split.
  { apply (proj1 (proj2 (proj2 (resolve_repo_order workspace_world _
                                  (Some "nope") Hw))) "nope");
      vm_compute; reflexivity. }
  split.
  { apply (proj1 (proj2 (proj2 (proj2
             (resolve_repo_order workspace_world _ None Hw))))
             "llvm" ["iree"] "/src/llvm-project");
      vm_compute; reflexivity. }
  apply (proj1 (proj2 (proj2 (proj2 (proj2
           (resolve_repo_order idle_world _ (Some "") Hi))))) []);
    vm_compute; reflexivity.
Defined.

(** ** Text lemmas for the scanner *)

#[local] Arguments String.append !_ _ / : simpl nomatch.

Lemma append_assoc (a b c : string) : (a ++ b) ++ c = a ++ b ++ c.
Proof. induction a as [| x a IH]; cbn; [reflexivity | now rewrite IH]. Qed.

Lemma prefix_append (m s : string) : String.prefix m (m ++ s) = true.
Proof.
  induction m as [| c m IH]; cbn; [now destruct s|].
  destruct (ascii_dec c c); [exact IH | congruence].
Qed.

Lemma prefix_inv (m s : string) :
  String.prefix m s = true -> exists post, s = m ++ post.
Proof.
  revert s. induction m as [| c m IH]; intros s H; [now exists s|].
  destruct s as [| c' s]; [discriminate|]. cbn in H.
  destruct (ascii_dec c c') as [<- |]; [|discriminate].
  destruct (IH s H) as [post ->]. now exists post.
Qed.

Lemma drop_append (a s : string) : drop (String.length a) (a ++ s) = s.
Proof. induction a as [| c a IH]; cbn; [now destruct s | exact IH]. Qed.

Lemma drop_append_add (a s : string) (n : nat) :
  drop (String.length a + n) (a ++ s) = drop n s.
Proof. induction a as [| c a IH]; cbn; [reflexivity | exact IH]. Qed.

(** [find] gives the offset of an occurrence... *)
Lemma find_occurrence (m s : string) (i : nat) :
  find m s = Some i ->
  exists pre post, s = pre ++ m ++ post /\ String.length pre = i.
Proof.
  revert i. induction s as [| c s IH]; intros i; cbn [find].
  - destruct (String.prefix m "") eqn:E; [|discriminate].
    intros [= <-]. destruct (prefix_inv _ _ E) as [post Hp].
    now exists "", post.
  - destruct (String.prefix m (String c s)) eqn:E.
    + intros [= <-]. destruct (prefix_inv _ _ E) as [post Hp].
      now exists "", post.
    + destruct (find m s) as [j|]; [|discriminate]. intros [= <-].
      destruct (IH j eq_refl) as (pre & post & -> & <-).
      now exists (String c pre), post.
Qed.

(** ... and no occurrence starts before it. *)
Lemma find_leftmost (m pre post : string) :
  exists i, find m (pre ++ m ++ post) = Some i /\ i <= String.length pre.
Proof.
  induction pre as [| c pre IH].
  - exists 0. cbn [String.append]. split; [|lia].
    destruct (m ++ post) eqn:E; cbn [find]; rewrite <- E, prefix_append;
      reflexivity.
  - cbn [String.append find].
    destruct (String.prefix m _); [exists 0; split; [reflexivity | cbn; lia]|].
    destruct IH as (i & -> & Hi). exists (S i). split; [reflexivity|].
    cbn. lia.
Qed.

Lemma find_after_first (m s : string) (i : nat) :
  find m s = Some i ->
  after_first m s = Some (drop (i + String.length m) s).
Proof.
  revert i. induction s as [| c s IH]; intros i; cbn [find after_first].
  - destruct (String.prefix m ""); [|discriminate]. now intros [= <-].
  - destruct (String.prefix m (String c s)); [now intros [= <-]|].
    destruct (find m s) as [j|]; [|discriminate]. intros [= <-].
    now rewrite (IH j eq_refl).
Qed.

Lemma find_none_after_first (m s : string) :
  find m s = None -> after_first m s = None.
Proof.
  induction s as [| c s IH]; cbn [find after_first].
  - now destruct (String.prefix m "").
  - destruct (String.prefix m (String c s)); [discriminate|].
    destruct (find m s); [discriminate|]. auto.
Qed.

Lemma find_none_contains (m s : string) :
  find m s = None <-> contains m s = false.
Proof.
  induction s as [| c s IH]; cbn [find contains].
  - destruct (String.prefix m ""); cbn; split; congruence.
  - destruct (String.prefix m (String c s)); cbn; [split; congruence|].
    rewrite <- IH. destruct (find m s); cbn; split; congruence.
Qed.

(** The text after the leftmost occurrence, by its offset. *)
Lemma after_first_at (m pre post : string) :
  find m (pre ++ m ++ post) = Some (String.length pre) ->
  after_first m (pre ++ m ++ post) = Some post.
Proof.
  intros H. rewrite (find_after_first _ _ _ H).
  now rewrite drop_append_add, drop_append.
Qed.

Lemma rstrip_cons (c : ascii) (s : string) :
  rstrip (String c s)
  = match rstrip s with
    | EmptyString => if is_space c then EmptyString else String c EmptyString
    | r => String c r
    end.
Proof. reflexivity. Qed.

Lemma rstrip_idem (s : string) : rstrip (rstrip s) = rstrip s.
Proof.
  induction s as [| c s IH]; [reflexivity|]. rewrite rstrip_cons.
  destruct (rstrip s) as [| c' r] eqn:E.
  - destruct (is_space c) eqn:Hc; [reflexivity|].
    rewrite rstrip_cons. cbn [rstrip]. now rewrite Hc.
  - rewrite rstrip_cons, IH. reflexivity.
Qed.

Lemma rstrip_suffix (a b : string) : rstrip (a ++ b) = a ++ b -> rstrip b = b.
Proof.
  induction a as [| c a IH]; [exact id|]. cbn [String.append].
  rewrite rstrip_cons.
  destruct (rstrip (a ++ b)) as [| c' r] eqn:E.
  - destruct (is_space c); [discriminate|]. intros [= H].
    destruct a; [|discriminate]. cbn in H. now subst b.
  - intros [= H]. now apply IH.
Qed.

Lemma lstrip_suffix (s : string) : exists a, s = a ++ lstrip s.
Proof.
  induction s as [| c s [a IH]]; [now exists ""|]. cbn [lstrip].
  destruct (is_space c); [|now exists ""].
  exists (String c a). cbn. now rewrite <- IH.
Qed.

(** What [strip] returns has no blank at its end. *)
Lemma rstrip_strip (s : string) : rstrip (strip s) = strip s.
Proof.
  unfold strip. destruct (lstrip_suffix (rstrip s)) as [a Ha].
  apply (rstrip_suffix a). rewrite <- Ha. apply rstrip_idem.
Qed.

(** After a piece of stripped text, skipping the leading blanks is a full
    [strip]. *)
Lemma lstrip_after_stripped (text pre post : string) :
  strip text = pre ++ post -> lstrip post = strip post.
Proof.
  intros H. unfold strip at 1.
  assert (rstrip post = post) as ->; [|reflexivity].
  apply (rstrip_suffix pre). rewrite <- H. apply rstrip_strip.
Qed.

(** ** Lines of the search tool's output *)

Lemma span_until_lacks (c0 : ascii) (p r : string) :
  lacks c0 p = true -> span_until c0 (p ++ String c0 r) = Some (p, r).
Proof.
  induction p as [| c p IH]; cbn.
  - now rewrite Ascii.eqb_refl.
  - intros [Hc Hp]%andb_prop. apply negb_true_iff in Hc. rewrite Hc.
    now rewrite (IH Hp).
Qed.

Lemma digit_not_colon (c : ascii) :
  is_digit c = true -> Ascii.eqb c ":" = false.
Proof.
  destruct c as [[] [] [] [] [] [] [] []]; vm_compute; congruence.
Qed.

Lemma all_digits_lacks_colon (d : string) :
  all_digits d = true -> lacks ":" d = true.
Proof.
  induction d as [| c d IH]; [reflexivity|]. cbn.
  intros [Hc Hd]%andb_prop. now rewrite (digit_not_colon c Hc), (IH Hd).
Qed.

(** The pattern of [cmd_comments] takes a well-formed output line apart. *)
Lemma match_grep_line_wf (path digits text : string) :
  nonempty path = true -> lacks ":" path = true ->
  nonempty digits = true -> all_digits digits = true ->
  match_grep_line (grep_line path digits text)
  = Some (strip_opt "/" (strip_opt "." path), digits, text).
Proof.
  intros Hp Hc Hd Hdig. unfold match_grep_line, grep_line.
  change (path ++ ":" ++ digits ++ ":" ++ text)
    with (path ++ String ":" (digits ++ String ":" text)).
  rewrite (span_until_lacks _ _ _ Hc).
  rewrite (span_until_lacks _ _ _ (all_digits_lacks_colon _ Hdig)).
  now rewrite Hp, Hd, Hdig.
Qed.

Lemma grep_line_nonempty (path digits text : string) :
  nonempty path = true -> nonempty (grep_line path digits text) = true.
Proof. now destruct path. Qed.

(** The scanner on a well-formed line, by what its two searches find. *)
Lemma scan_line_wf (repo path digits text : string) (lineno : Z) :
  nonempty path = true -> lacks ":" path = true ->
  nonempty digits = true -> all_digits digits = true ->
  int_of_str digits = Some lineno ->
  scan_line repo (grep_line path digits text)
  = let content := strip text in
    let rel := strip_opt "/" (strip_opt "." path) in
    match re_search_marker "RVWY:" content,
          re_search_marker "RVW:" content with
    | Some t, _ => inr [comment_record repo rel lineno content t true]
    | None, Some t => inr [comment_record repo rel lineno content t false]
    | None, None => inr []
    end.
Proof.
  intros Hp Hc Hd Hdig Hint. unfold scan_line.
  rewrite (grep_line_nonempty _ _ _ Hp). cbn [negb].
  rewrite (match_grep_line_wf _ _ _ Hp Hc Hd Hdig), Hint. reflexivity.
Qed.

(** C2, as the code has it: on a well-formed output line whose text holds a
    marker, the scanner yields exactly one record.  If [RVWY:] occurs, the
    comment is the stripped text after its leftmost occurrence and [yolo] is
    true, wherever [RVW:] may occur; if only [RVW:] occurs, the comment is
    the stripped text after its leftmost occurrence and [yolo] is false; a
    line with neither yields no record. *)
Theorem scan_line_marker_priority :
  forall (repo path digits text : string),
    nonempty path = true -> lacks ":" path = true ->
    nonempty digits = true -> all_digits digits = true ->
    let content := strip text in
    let rel := strip_opt "/" (strip_opt "." path) in
    let ln := grep_line path digits text in
    exists lineno,
      int_of_str digits = Some lineno
      /\ (forall pre post,
            content = pre ++ "RVWY:" ++ post ->
            find "RVWY:" content = Some (String.length pre) ->
            scan_line repo ln
            = inr [comment_record repo rel lineno content (strip post) true])
      /\ (forall pre post,
            find "RVWY:" content = None ->
            content = pre ++ "RVW:" ++ post ->
            find "RVW:" content = Some (String.length pre) ->
            scan_line repo ln
            = inr [comment_record repo rel lineno content (strip post)
                     false])
      /\ (contains "RVWY:" content = true \/ contains "RVW:" content = true ->
          exists rec, scan_line repo ln = inr [rec])
      /\ (contains "RVWY:" content = false ->
          contains "RVW:" content = false ->
          scan_line repo ln = inr []).
Proof.
  intros repo path digits text Hp Hc Hd Hdig content rel ln.
  destruct (int_of_str_digits digits Hd Hdig) as [lineno Hint].
  exists lineno. split; [exact Hint|].
  pose proof (scan_line_wf repo path digits text lineno Hp Hc Hd Hdig Hint)
    as Hscan.
  cbv zeta in Hscan. fold content rel ln in Hscan.
  assert (forall m pre post,
            content = pre ++ m ++ post ->
            find m content = Some (String.length pre) ->
            re_search_marker m content = Some (strip post)) as Hfound.
  { intros m pre post Hcontent Hfind. unfold re_search_marker.
    rewrite Hcontent in Hfind |- *. rewrite (after_first_at _ _ _ Hfind).
    cbn [option_map]. f_equal.
    apply (lstrip_after_stripped text (pre ++ m)).
    now rewrite append_assoc. }
  assert (forall m, find m content = None ->
                    re_search_marker m content = None) as Hmissing.
  { intros m Hm. unfold re_search_marker.
    now rewrite (find_none_after_first _ _ Hm). }
  repeat split.
  - intros pre post Hcontent Hfind.
    now rewrite Hscan, (Hfound _ _ _ Hcontent Hfind).
  - intros pre post Hnone Hcontent Hfind.
    now rewrite Hscan, (Hmissing _ Hnone), (Hfound _ _ _ Hcontent Hfind).
  - intros Hmarker. rewrite Hscan.
    destruct (re_search_marker "RVWY:" content) eqn:Ey; [eauto|].
    destruct (re_search_marker "RVW:" content) eqn:Ew; [eauto|].
    exfalso. unfold re_search_marker in Ey, Ew.
    destruct (find "RVWY:" content) as [i|] eqn:Fy.
    { now rewrite (find_after_first _ _ _ Fy) in Ey. }
    destruct (find "RVW:" content) as [i|] eqn:Fw.
    { now rewrite (find_after_first _ _ _ Fw) in Ew. }
    apply find_none_contains in Fy, Fw.
    destruct Hmarker; congruence.
  - intros Hy Hw. apply find_none_contains in Hy, Hw.
    now rewrite Hscan, (Hmissing _ Hy), (Hmissing _ Hw).
Qed.

Lemma scan_line_marker_priority_witness :
  scan_line "/repo" "./a.py:7:// RVW: see RVWY: below  "
  = inr [comment_record "/repo" "a.py" 7 "// RVW: see RVWY: below"
           "below" true].
Proof.
  destruct (scan_line_marker_priority "/repo" "./a.py" "7"
              "// RVW: see RVWY: below  " eq_refl eq_refl eq_refl eq_refl)
    as (lineno & Hint & Hyolo & _).
  vm_compute in Hint. injection Hint as <-.
  apply (Hyolo "// RVW: see " " below"); reflexivity.
Defined.

(** C2 as stated fails: on this line the earliest marker is [RVW:], at
    offset 3, before [RVWY:] at offset 12, yet the record carries the text
    after [RVWY:], not the text after the earliest marker. *)
Lemma scan_line_earliest_marker_counterexample :
  let content := "// RVW: see RVWY: below" in
  find "RVW:" content = Some 3
  /\ find "RVWY:" content = Some 12
  /\ option_map strip (after_first "RVW:" content) = Some "see RVWY: below"
  /\ scan_line "/repo" "./a.py:7:// RVW: see RVWY: below"
     = inr [[("file", VStr "/repo/a.py");
             ("relative_path", VStr "a.py");
             ("line", VInt 7);
             ("raw", VStr "// RVW: see RVWY: below");
             ("comment", VStr "below");
             ("yolo", VBool true)]]
  /\ "below" <> "see RVWY: below".
Proof. repeat split; try (vm_compute; reflexivity). discriminate. Qed.

(** ** Worked examples *)

Example strip_ex : strip "  a b	 " = "a b".
Proof. reflexivity. Qed.

Example split_ex :
  split "|" "| iree | /src/iree | main |"
  = [""; " iree "; " /src/iree "; " main "; ""].
Proof. reflexivity. Qed.

Example split_empty_ex : split "|" "" = [""].
Proof. reflexivity. Qed.

Example int_of_str_ex :
  int_of_str " 12 " = Some 12%Z /\ int_of_str "-7" = Some (-7)%Z
  /\ int_of_str "1_0" = Some 10%Z /\ int_of_str "" = None
  /\ int_of_str "1__0" = None /\ int_of_str "12a" = None.
Proof. repeat split; reflexivity. Qed.

Example str_of_int_ex :
  str_of_int 3 = "3" /\ str_of_int 0 = "0" /\ str_of_int (-2) = "-2".
Proof. repeat split; reflexivity. Qed.

(** The lines the scanner loops over hold no line break. *)
Lemma split_lacks_sep (c : ascii) (s : string) :
  Forall (fun l => lacks c l = true) (split c s).
Proof.
  induction s as [| x s IH]; cbn [split].
  - now repeat constructor.
  - destruct (Ascii.eqb x c) eqn:E; [now constructor|].
    destruct (split c s) as [| h t]; inversion IH; subst;
      constructor; cbn; try rewrite E; auto.
Qed.

Example scan_yolo_line :
  scan_line "/repo" "./src/a.cpp:42:  // RVWY: fix bounds check"
  = inr [comment_record "/repo" "src/a.cpp" 42 "// RVWY: fix bounds check"
           "fix bounds check" true].
Proof. reflexivity. Qed.

Example scan_discuss_line :
  scan_line "/repo" "./tools/b.py:3:# RVW: discuss naming"
  = inr [comment_record "/repo" "tools/b.py" 3 "# RVW: discuss naming"
           "discuss naming" false].
Proof. reflexivity. Qed.

Example scan_both_markers_line :
  scan_line "/repo" "./a.md:1:RVWY: see RVW: below"
  = inr [comment_record "/repo" "a.md" 1 "RVWY: see RVW: below"
           "see RVW: below" true].
Proof. reflexivity. Qed.

(** A file name with a colon makes the pattern fail, and the line is
    dropped. *)
Example scan_colon_in_file_name :
  scan_line "/repo" "./a:b.py:3:# RVW: discuss naming" = inr [].
Proof. reflexivity. Qed.

(** In remote mode a dispatch overwrites the command descriptor. *)
Example open_in_vscode_remote :
  let w' := fst (open_in_vscode ["/repo/a.py"; "/repo/b.py"] true
                   healthy_world) in
  w_files w' !! "/ws/.state/vscode-commands"
  = Some (line "code --new-window /repo/a.py /repo/b.py")
  /\ elements (w_dirs w') = ["/ws/.state"]
  /\ w_trace w' = [].
Proof. repeat split; vm_compute; reflexivity. Qed.

(** * Further properties of the script *)

(** ** The delivery mode *)

Lemma workspace_paths (w : World) :
  STATE_DIR w = w_workspace w ++ "/.state"
  /\ VSCODE_MODE_FILE w = STATE_DIR w ++ "/vscode-mode"
  /\ VSCODE_COMMANDS_FILE w = STATE_DIR w ++ "/vscode-commands".
Proof. repeat split. Qed.

Lemma append_length (a b : string) :
  String.length (a ++ b) = String.length a + String.length b.
Proof. induction a as [| c a IH]; cbn; [reflexivity | now rewrite IH]. Qed.

Lemma append_neq_self (a b : string) : nonempty b = true -> a ++ b <> a.
Proof.
  intros Hb E. apply (f_equal String.length) in E.
  rewrite append_length in E. destruct b; [discriminate | cbn in E; lia].
Qed.

Lemma mode_file_neq_commands (w : World) :
  VSCODE_MODE_FILE w <> VSCODE_COMMANDS_FILE w.
Proof.
  destruct (workspace_paths w) as (_ & -> & ->).
  intros E. apply (inj (String.append _)) in E. discriminate.
Qed.

Lemma mode_file_neq_state_dir (w : World) : VSCODE_MODE_FILE w <> STATE_DIR w.
Proof.
  destruct (workspace_paths w) as (_ & -> & _). now apply append_neq_self.
Qed.

Lemma commands_neq_state_dir (w : World) :
  VSCODE_COMMANDS_FILE w <> STATE_DIR w.
Proof.
  destruct (workspace_paths w) as (_ & _ & ->). now apply append_neq_self.
Qed.

(** What [get_vscode_mode] answers, as a function of the marker file. *)
Lemma get_vscode_mode_unfold (w : World) :
  get_vscode_mode w =
    (w,
     if exists_in w (VSCODE_MODE_FILE w) then
       match w_files w !! VSCODE_MODE_FILE w with
       | Some text =>
           inr (if String.eqb (lower (strip text)) "local" then "local"
                else "remote")
       | None => inl (IsADirectoryError (VSCODE_MODE_FILE w))
       end
     else inr "remote").
Proof.
  unfold get_vscode_mode, path_exists, read_text, exists_in. unfold_m.
  destruct (w_files w !! VSCODE_MODE_FILE w) as [text|] eqn:E.
  - rewrite bool_decide_eq_true_2 by (eexists; reflexivity).
    cbn [orb]. rewrite E.
    destruct (String.eqb_spec (lower (strip text)) "local") as [-> | _];
      [reflexivity|].
    cbn [orb].
    destruct (String.eqb_spec (lower (strip text)) "remote") as [-> | _];
      reflexivity.
  - rewrite bool_decide_eq_false_2 by (intros [? ?]; discriminate).
    cbn [orb]. destruct (bool_decide _) eqn:D; [|reflexivity].
    rewrite E, D. reflexivity.
Qed.

(** X1: [get_vscode_mode] changes nothing in the world and answers only
    [local] or [remote]: [remote] when the marker file is absent, and
    otherwise [local] exactly when the marker's text, stripped and in lower
    case, is [local]. *)
Theorem get_vscode_mode_range :
  forall (w : World),
    fst (get_vscode_mode w) = w
    /\ (forall mode, snd (get_vscode_mode w) = inr mode ->
                     mode = "local" \/ mode = "remote")
    /\ (exists_in w (VSCODE_MODE_FILE w) = false ->
        snd (get_vscode_mode w) = inr "remote")
    /\ (forall text, w_files w !! VSCODE_MODE_FILE w = Some text ->
                     snd (get_vscode_mode w)
                     = inr (if String.eqb (lower (strip text)) "local"
                            then "local" else "remote")).
Proof.
  intros w. rewrite get_vscode_mode_unfold. cbn [fst snd].
  split; [reflexivity|]. split; [|split].
  - destruct (exists_in w _); [|intros mode [= <-]; now right].
    destruct (w_files w !! _); [|discriminate].
    destruct (String.eqb _ _); intros mode [= <-]; auto.
  - now intros ->.
  - intros text Ht. unfold exists_in. rewrite Ht.
    rewrite bool_decide_eq_true_2 by (eexists; reflexivity). reflexivity.
Qed.

Example get_vscode_mode_local :
  snd (get_vscode_mode local_world) = inr "local".
Proof. vm_compute. reflexivity. Qed.

(** ** The editor dispatcher, file list not empty *)

(** The ways a dispatch can go. *)
Lemma open_in_vscode_unfold (files : list string) (nw : bool) (w : World) :
  files <> [] ->
  open_in_vscode files nw w =
    match snd (get_vscode_mode w) with
    | inl e => (w, inl e)
    | inr mode =>
        if String.eqb mode "local" then
          if w_code_spawns w
          then (log_event (EvSpawn (editor_argv files nw)) w, inr tt)
          else (w, inl (FileNotFoundError "code"))
        else if bool_decide (is_Some (w_files w !! STATE_DIR w))
        then (w, inl (FileExistsError (STATE_DIR w)))
        else if bool_decide
                  (VSCODE_COMMANDS_FILE w ∈ {[STATE_DIR w]} ∪ w_dirs w)
        then (with_fs (w_files w) ({[STATE_DIR w]} ∪ w_dirs w) w,
              inl (IsADirectoryError (VSCODE_COMMANDS_FILE w)))
        else (staged_remotely (editor_command files nw) w, inr tt)
    end.
Proof.
  intros Hne. destruct files as [| f fs]; [congruence|].
  unfold open_in_vscode.
  fold (editor_argv (f :: fs) nw). fold (editor_command (f :: fs) nw).
  rewrite (bind_frame _ _ w (snd (get_vscode_mode w)))
    by (rewrite get_vscode_mode_unfold; reflexivity).
  destruct (snd (get_vscode_mode w)) as [e | mode]; [reflexivity|].
  destruct (String.eqb mode "local").
  - unfold_m. destruct (w_code_spawns w); reflexivity.
  - unfold mkdir_exist_ok, write_text. unfold_m.
    destruct (bool_decide (is_Some _)); [reflexivity|].
    cbn -[STATE_DIR VSCODE_COMMANDS_FILE editor_command].
    change (VSCODE_COMMANDS_FILE (mkWorld _ _ (w_workspace w) _ _ _ _ _ _))
      with (VSCODE_COMMANDS_FILE w).
    destruct (bool_decide _); reflexivity.
Qed.

Lemma get_vscode_mode_two (w : World) (mode : string) :
  snd (get_vscode_mode w) = inr mode -> mode = "local" \/ mode = "remote".
Proof.
  rewrite get_vscode_mode_unfold. cbn [snd].
  destruct (exists_in w _); [|intros [= <-]; now right].
  destruct (w_files w !! _); [|discriminate].
  destruct (String.eqb _ _); intros [= <-]; auto.
Qed.

(** X2: a dispatch of a non-empty file list that returns has done exactly
    one of two things.  Either it has started the editor, with the program
    name, the optional flag and the files as arguments, and left files and
    directories alone; or it has started nothing, made sure the state
    directory exists and put the command line, with a line break at its end,
    in the command descriptor, leaving every other file as it was. *)
Theorem open_in_vscode_effect :
  forall (files : list string) (nw : bool) (w w' : World),
    files <> [] ->
    open_in_vscode files nw w = (w', inr tt) ->
    (snd (get_vscode_mode w) = inr "local"
     /\ w' = log_event (EvSpawn (editor_argv files nw)) w
     /\ w_files w' = w_files w /\ w_dirs w' = w_dirs w)
    \/ (snd (get_vscode_mode w) = inr "remote"
        /\ w' = staged_remotely (editor_command files nw) w
        /\ w_trace w' = w_trace w
        /\ STATE_DIR w ∈ w_dirs w'
        /\ w_files w' !! VSCODE_COMMANDS_FILE w
           = Some (editor_command files nw ++ String NL "")
        /\ (forall p, p <> VSCODE_COMMANDS_FILE w ->
                      w_files w' !! p = w_files w !! p)).
Proof.
  intros files nw w w' Hne. rewrite (open_in_vscode_unfold _ _ _ Hne).
  pose proof (get_vscode_mode_two w) as Hrange.
  destruct (snd (get_vscode_mode w)) as [e | mode]; [discriminate|].
  destruct (Hrange mode eq_refl) as [-> | ->].
  - change (String.eqb "local" "local") with true. cbn iota.
    destruct (w_code_spawns w); [|discriminate].
    intros [= <-]. left. repeat split.
  - change (String.eqb "remote" "local") with false. cbn iota.
    destruct (bool_decide (is_Some _)); [discriminate|].
    destruct (bool_decide (_ ∈ _)); [discriminate|].
    intros [= <-]. right. split; [reflexivity|]. split; [reflexivity|].
    split; [reflexivity|]. unfold staged_remotely, with_fs. cbn [w_dirs w_files].
    split; [set_solver|]. split; [apply lookup_insert_eq|].
    intros p Hp. now apply lookup_insert_ne.
Qed.

Lemma open_in_vscode_effect_witness :
  exists w',
    open_in_vscode ["/repo/a.py"] true local_world = (w', inr tt)
    /\ w_trace w' = [EvSpawn ["code"; "--new-window"; "/repo/a.py"]]
    /\ w_files w' = w_files local_world.
Proof.
  eexists. split; [vm_compute; reflexivity|].
  split; [reflexivity|].
  destruct (open_in_vscode_effect ["/repo/a.py"] true local_world _
              ltac:(discriminate) eq_refl)
    as [(_ & _ & Hf & _) | (Hm & _)]; [exact Hf|].
  vm_compute in Hm. discriminate.
Defined.

(** Leaving a command for the watcher does not change the delivery mode. *)
Lemma get_vscode_mode_staged (cmd : string) (w : World) :
  snd (get_vscode_mode (staged_remotely cmd w)) = snd (get_vscode_mode w).
Proof.
  rewrite !get_vscode_mode_unfold. cbn [snd].
  change (VSCODE_MODE_FILE (staged_remotely cmd w))
    with (VSCODE_MODE_FILE w).
  assert (w_files (staged_remotely cmd w) !! VSCODE_MODE_FILE w
          = w_files w !! VSCODE_MODE_FILE w) as Hf.
  { unfold staged_remotely, with_fs. cbn [w_files].
    apply lookup_insert_ne. intros E. now apply (mode_file_neq_commands w). }
  assert (bool_decide (VSCODE_MODE_FILE w ∈ w_dirs (staged_remotely cmd w))
          = bool_decide (VSCODE_MODE_FILE w ∈ w_dirs w)) as Hd.
  { unfold staged_remotely, with_fs. cbn [w_dirs].
    apply bool_decide_ext. rewrite elem_of_union, elem_of_singleton.
    split; [intros [E | E]; [|exact E] | now right].
    now apply mode_file_neq_state_dir in E. }
  unfold exists_in. now rewrite Hf, Hd.
Qed.

(** X3: in remote mode the command descriptor is a single slot.  After a
    dispatch that returned, a second dispatch of a non-empty file list
    returns too, starts no process, and leaves in the descriptor the second
    command line only. *)
Theorem open_in_vscode_remote_last_wins :
  forall (fs1 fs2 : list string) (nw1 nw2 : bool) (w w1 : World),
    fs1 <> [] -> fs2 <> [] ->
    snd (get_vscode_mode w) = inr "remote" ->
    open_in_vscode fs1 nw1 w = (w1, inr tt) ->
    exists w2,
      open_in_vscode fs2 nw2 w1 = (w2, inr tt)
      /\ w_files w2 !! VSCODE_COMMANDS_FILE w
         = Some (editor_command fs2 nw2 ++ String NL "")
      /\ w_trace w2 = w_trace w.
Proof.
  intros fs1 fs2 nw1 nw2 w w1 H1 H2 Hmode.
  rewrite (open_in_vscode_unfold _ _ _ H1), Hmode.
  change (String.eqb "remote" "local") with false. cbn iota.
  destruct (bool_decide (is_Some (w_files w !! STATE_DIR w))) eqn:Hsd;
    [discriminate|].
  destruct (bool_decide (VSCODE_COMMANDS_FILE w ∈ _)) eqn:Hcd;
    [discriminate|].
  intros [= <-].
  rewrite (open_in_vscode_unfold _ _ _ H2), get_vscode_mode_staged, Hmode.
  change (String.eqb "remote" "local") with false. cbn iota.
  set (w1 := staged_remotely (editor_command fs1 nw1) w).
  change (STATE_DIR w1) with (STATE_DIR w).
  change (VSCODE_COMMANDS_FILE w1) with (VSCODE_COMMANDS_FILE w).
  apply bool_decide_eq_false in Hsd, Hcd.
  rewrite (bool_decide_eq_false_2 (is_Some (w_files w1 !! STATE_DIR w))).
  2:{ subst w1. unfold staged_remotely, with_fs. cbn [w_files].
      rewrite lookup_insert_ne; [exact Hsd|].
      apply commands_neq_state_dir. }
  rewrite (bool_decide_eq_false_2
             (VSCODE_COMMANDS_FILE w ∈ {[STATE_DIR w]} ∪ w_dirs w1)).
  2:{ subst w1. unfold staged_remotely, with_fs. cbn [w_dirs].
      rewrite elem_of_union. intros [E | E]; [|exact (Hcd E)].
      apply Hcd. rewrite elem_of_union. now left. }
  eexists. split; [reflexivity|].
  unfold staged_remotely at 1, with_fs. cbn [w_files w_trace].
  change (VSCODE_COMMANDS_FILE w1) with (VSCODE_COMMANDS_FILE w).
  split; [apply lookup_insert_eq | reflexivity].
Qed.

Lemma open_in_vscode_remote_last_wins_witness :
  exists w1 w2,
    open_in_vscode ["/repo/a.py"] true healthy_world = (w1, inr tt)
    /\ open_in_vscode ["/repo/b.py"; "/repo/c.py"] false w1 = (w2, inr tt)
    /\ w_files w2 !! "/ws/.state/vscode-commands"
       = Some (line "code /repo/b.py /repo/c.py").
Proof.
  eexists _.
  destruct (open_in_vscode_remote_last_wins ["/repo/a.py"]
              ["/repo/b.py"; "/repo/c.py"] true false healthy_world _
              ltac:(discriminate) ltac:(discriminate) eq_refl eq_refl)
    as (w2 & Hrun & Hfile & _).
  exists w2. split; [reflexivity|]. split; [exact Hrun | exact Hfile].
Defined.

(** ** The command line left for the watcher *)

Lemma split_lacks (c : ascii) (x : string) :
  lacks c x = true -> split c x = [x].
Proof.
  induction x as [| a x IH]; [reflexivity|]. cbn [lacks split].
  intros [Ha Hx]%andb_prop. apply negb_true_iff in Ha.
  now rewrite Ha, (IH Hx).
Qed.

Lemma split_append_sep (c : ascii) (x r : string) :
  lacks c x = true -> split c (x ++ String c r) = x :: split c r.
Proof.
  induction x as [| a x IH]; cbn [lacks split String.append].
  - intros _. now rewrite Ascii.eqb_refl.
  - intros [Ha Hx]%andb_prop. apply negb_true_iff in Ha.
    now rewrite Ha, (IH Hx).
Qed.

(** Splitting undoes joining when no part holds the separator. *)
Lemma split_join (c : ascii) (parts : list string) :
  parts <> [] -> forallb (lacks c) parts = true ->
  split c (join (String c "") parts) = parts.
Proof.
  unfold join. induction parts as [| x xs IH]; [congruence|]. intros _.
  cbn [forallb]. intros [Hx Hxs]%andb_prop.
  destruct xs as [| y ys]; [now apply split_lacks|].
  change (String.concat (String c "") (x :: y :: ys))
    with (x ++ String c (String.concat (String c "") (y :: ys))).
  rewrite (split_append_sep _ _ _ Hx). f_equal.
  apply IH; [discriminate | exact Hxs].
Qed.

(** X4: when no file name holds a blank, the command line built by the
    dispatcher splits at blanks back into the argument vector: the program
    name, the optional flag and the files, in order.  (Names are joined
    without quoting.) *)
Theorem editor_command_splits :
  forall (files : list string) (nw : bool),
    forallb (lacks " ") files = true ->
    split " " (editor_command files nw) = editor_argv files nw.
Proof.
  intros files nw H. unfold editor_command. apply split_join.
  - discriminate.
  - unfold editor_argv. rewrite !forallb_app, H. now destruct nw.
Qed.

Lemma editor_command_splits_witness :
  split " " (editor_command ["/repo/a.py"; "/repo/docs/b.md"] true)
  = ["code"; "--new-window"; "/repo/a.py"; "/repo/docs/b.md"].
Proof.
  apply (editor_command_splits ["/repo/a.py"; "/repo/docs/b.md"] true).
  reflexivity.
Defined.

(** A file name with a blank is cut in two by the same reading. *)
Example editor_command_blank_in_name :
  split " " (editor_command ["/repo/my file.py"] false)
  = ["code"; "/repo/my"; "file.py"].
Proof. reflexivity. Qed.

(** ** More on the alias table *)

Lemma lstrip_idem (s : string) : lstrip (lstrip s) = lstrip s.
Proof.
  induction s as [| c s IH]; [reflexivity|]. cbn [lstrip].
  destruct (is_space c) eqn:E; [exact IH|]. cbn [lstrip]. now rewrite E.
Qed.

Lemma strip_idem (s : string) : strip (strip s) = strip s.
Proof.
  unfold strip at 1. rewrite rstrip_strip. unfold strip. apply lstrip_idem.
Qed.

Lemma parse_rows_no_header (lines : list string) (m : gmap string string) :
  forallb (fun l => negb (contains "| Alias |" l)) lines = true ->
  parse_rows false m lines = m.
Proof.
  intros H. rewrite <- (app_nil_r lines).
  now rewrite (parse_rows_before _ _ _ H).
Qed.

(** X5: an alias document without a line containing the header marker
    [| Alias |] gives the empty table, whatever rows it holds. *)
Theorem parse_directory_map_needs_header :
  forall (w : World) (content : string),
    w_files w !! DIRECTORY_MAP_FILE w = Some content ->
    forallb (fun l => negb (contains "| Alias |" l)) (split NL content)
    = true ->
    parse_directory_map w = (w, inr ∅).
Proof.
  intros w content Hfile Hlines.
  rewrite (parse_directory_map_read w content Hfile).
  now rewrite (parse_rows_no_header _ _ Hlines).
Qed.

Lemma parse_directory_map_needs_header_witness :
  parse_directory_map untabled_world = (untabled_world, inr ∅)
  /\ table_row "| iree | /src/iree | |" = Some ("iree", "/src/iree").
Proof.
  split; [|reflexivity].
  apply (parse_directory_map_needs_header untabled_world
           (line "# Directory map" ++ line "| iree | /src/iree | |"));
    vm_compute; reflexivity.
Defined.

Lemma separator_starts_with_pipe (s : string) :
  startswith "|---" s = true -> startswith "|" s = true.
Proof.
  unfold startswith. destruct s as [| c s]; [discriminate|].
  change (String.prefix "|---" (String c s))
    with (if ascii_dec "|" c then String.prefix "---" s else false).
  change (String.prefix "|" (String c s))
    with (if ascii_dec "|" c then String.prefix "" s else false).
  destruct (ascii_dec "|" c); [|discriminate]. intros _. now destruct s.
Qed.

(** The loop stops at the first line that is neither a header nor a
    pipe-led line. *)
Lemma parse_rows_stop (rows rest : list string) (stop : string) :
  forallb continues_table rows = true ->
  contains "| Alias |" stop = false -> startswith "|" stop = false ->
  forall m, parse_rows true m (rows ++ stop :: rest) = parse_rows true m rows.
Proof.
  intros Hrows Hh Hp. induction rows as [| l ls IH]; intros m.
  - cbn [app parse_rows]. rewrite Hh.
    destruct (startswith "|---" stop) eqn:Hsep; [|now rewrite Hp].
    apply separator_starts_with_pipe in Hsep. congruence.
  - cbn in Hrows. apply andb_prop in Hrows as [Hl Hls].
    cbn [app parse_rows]. unfold continues_table in Hl.
    destruct (contains "| Alias |" l); [now apply IH|].
    cbn in Hl. rewrite Hl. cbn [negb].
    destruct (startswith "|---" l); [now apply IH|].
    destruct (3 <=? _)%nat; [|now apply IH].
    destruct (_ && _); now apply IH.
Qed.

(** X6: the alias table ends at the first line after the header that
    neither begins with a pipe nor contains the header marker: the table is
    what the rows before that line give, and nothing after it is read, not
    even well-formed rows. *)
Theorem parse_directory_map_table_end :
  forall (w : World) (content : string)
         (before rows rest : list string) (header stop : string),
    w_files w !! DIRECTORY_MAP_FILE w = Some content ->
    split NL content = (before ++ header :: rows ++ stop :: rest)%list ->
    forallb (fun l => negb (contains "| Alias |" l)) before = true ->
    contains "| Alias |" header = true ->
    forallb continues_table rows = true ->
    contains "| Alias |" stop = false ->
    startswith "|" stop = false ->
    parse_directory_map w = (w, inr (parse_rows true ∅ rows)).
Proof.
  intros w content before rows rest header stop
    Hfile Hsplit Hbefore Hheader Hrows Hstop1 Hstop2.
  rewrite (parse_directory_map_read w content Hfile), Hsplit.
  rewrite (parse_rows_before _ _ _ Hbefore).
  rewrite (parse_rows_header _ _ _ _ Hheader).
  now rewrite (parse_rows_stop _ _ _ Hrows Hstop1 Hstop2).
Qed.

Lemma parse_directory_map_table_end_witness :
  exists aliases,
    parse_directory_map workspace_world = (workspace_world, inr aliases)
    /\ aliases !! "late" = None
    /\ table_row "| late | /src/late | after the table |"
       = Some ("late", "/src/late").
Proof.
  eexists. split.
  - apply (parse_directory_map_table_end workspace_world sample_map_doc
             ["# Directory map"; ""]
             ["|-------|------|-------|";
              "| iree | /src/iree | main checkout |";
              "| llvm | /src/llvm-project | |";
              "| iree | /src/iree-next | newer checkout |"]
             ["| late | /src/late | after the table |"; ""]
             "| Alias | Path | Notes |" "");
      vm_compute; reflexivity.
  - split; vm_compute; reflexivity.
Defined.

(** Every entry the loop adds comes from a row among its lines. *)
Lemma parse_rows_entries (lines : list string) :
  forall (b : bool) (m : gmap string string) (a p : string),
    parse_rows b m lines !! a = Some p ->
    m !! a = Some p \/ exists ln, In ln lines /\ table_row ln = Some (a, p).
Proof.
  induction lines as [| l ls IH]; intros b m a p; [now left|].
  assert (forall b' m',
            (m' !! a = Some p ->
             m !! a = Some p \/ table_row l = Some (a, p)) ->
            parse_rows b' m' ls !! a = Some p ->
            m !! a = Some p
            \/ exists ln, In ln (l :: ls) /\ table_row ln = Some (a, p))
    as Hstep.
  { intros b' m' Hm' H. destruct (IH b' m' a p H) as [H' | (ln & Hin & Hrow)].
    - destruct (Hm' H') as [? | ?]; [now left|].
      right. exists l. split; [now left | assumption].
    - right. exists ln. split; [now right | assumption]. }
  cbn [parse_rows]. unfold table_row, row_entry in Hstep.
  destruct (contains "| Alias |" l); [apply Hstep; auto|].
  destruct b; [|apply Hstep; auto].
  destruct (startswith "|---" l); [apply Hstep; auto|].
  destruct (negb (startswith "|" l)); [now left|].
  destruct (3 <=? _)%nat; [|apply Hstep; auto].
  destruct (_ && _); [|apply Hstep; auto].
  apply Hstep. intros Hl.
  destruct (decide (nth 1 (map strip (split "|" l)) "" = a)) as [<- | Hne].
  - rewrite lookup_insert_eq in Hl. injection Hl as <-. now right.
  - rewrite lookup_insert_ne in Hl by exact Hne. now left.
Qed.

Lemma nth_map_strip (n : nat) (l : list string) :
  nth n (map strip l) "" = strip (nth n l "").
Proof. exact (map_nth strip l "" n). Qed.

(** What a row contributes is stripped, non-empty and not a rule. *)
Lemma table_row_shape (ln a p : string) :
  table_row ln = Some (a, p) ->
  nonempty a = true /\ nonempty p = true
  /\ strip a = a /\ strip p = p /\ startswith "---" a = false.
Proof.
  unfold table_row, row_entry.
  destruct (contains "| Alias |" ln); [discriminate|].
  destruct (startswith "|---" ln); [discriminate|].
  destruct (negb (startswith "|" ln)); [discriminate|].
  destruct (3 <=? _)%nat; [|discriminate].
  destruct (nonempty (nth 1 _ _)) eqn:Ea; [|discriminate].
  destruct (nonempty (nth 2 _ _)) eqn:Ep; [|discriminate].
  destruct (startswith "---" (nth 1 _ _)) eqn:Er; [discriminate|].
  cbn. intros [= <- <-]. rewrite !nth_map_strip, !strip_idem.
  rewrite !nth_map_strip in Ea, Ep, Er. auto.
Qed.

(** X7: every entry of the parsed alias table comes from a row of the
    document: a pipe-led line, neither header nor separator, whose first two
    cells, stripped, are the alias and the path.  So aliases and paths in
    the table are non-empty and carry no surrounding blanks, and no alias
    begins with three dashes. *)
Theorem parse_directory_map_entries :
  forall (w w' : World) (aliases : gmap string string) (a p : string),
    parse_directory_map w = (w', inr aliases) ->
    aliases !! a = Some p ->
    exists content ln,
      w_files w !! DIRECTORY_MAP_FILE w = Some content
      /\ In ln (split NL content)
      /\ table_row ln = Some (a, p)
      /\ nonempty a = true /\ nonempty p = true
      /\ strip a = a /\ strip p = p /\ startswith "---" a = false.
Proof.
  intros w w' aliases a p Hparse Hlook.
  destruct (w_files w !! DIRECTORY_MAP_FILE w) as [content|] eqn:Hfile.
  - rewrite (parse_directory_map_read w content Hfile) in Hparse.
    injection Hparse as _ <-.
    destruct (parse_rows_entries _ _ _ _ _ Hlook) as [H | (ln & Hin & Hrow)];
      [now rewrite lookup_empty in H|].
    exists content, ln. split; [reflexivity|]. split; [exact Hin|].
    split; [exact Hrow|]. exact (table_row_shape _ _ _ Hrow).
  - exfalso. revert Hparse.
    unfold parse_directory_map, path_exists, read_text. unfold_m.
    cbn -[DIRECTORY_MAP_FILE].
    rewrite Hfile. destruct (negb _).
    + intros [= _ <-]. now rewrite lookup_empty in Hlook.
    + cbn -[DIRECTORY_MAP_FILE]. rewrite Hfile.
      destruct (bool_decide _); discriminate.
Qed.

Lemma parse_directory_map_entries_witness :
  exists ln,
    In ln (split NL sample_map_doc)
    /\ table_row ln = Some ("llvm", "/src/llvm-project").
Proof.
  destruct (parse_directory_map_entries workspace_world workspace_world
              (parse_rows false ∅ (split NL sample_map_doc))
              "llvm" "/src/llvm-project")
    as (content & ln & Hfile & Hin & Hrow & _).
  - vm_compute. reflexivity.
  - vm_compute. reflexivity.
  - vm_compute in Hfile. injection Hfile as <-. now exists ln.
Defined.

(** ** Resolution reads, and only reads *)

(** X8: resolving an alias never changes the world, whether it returns a
    path or raises: no file or directory is touched and no external command
    is started.  Resolving the same alias again right away therefore gives
    the same outcome. *)
Theorem resolve_repo_read_only :
  forall (alias : option string) (w : World),
    fst (resolve_repo alias w) = w
    /\ resolve_repo alias (fst (resolve_repo alias w)) = resolve_repo alias w.
Proof.
  intros alias w.
  assert (fst (resolve_repo alias w) = w) as H; [|now rewrite H].
  unfold resolve_repo.
  destruct (parse_directory_map_frame w) as (r & Hr & _).
  rewrite (bind_frame _ _ w _ Hr).
  destruct r as [e | aliases]; [reflexivity|].
  assert (fst ((task_repos <- get_active_task_repos ;;
                match task_repos with
                | [] => gets w_cwd
                | first_repo :: _ =>
                    match aliases !! first_repo with
                    | Some path => ret path
                    | None => gets w_cwd
                    end
                end) w) = w) as Htask.
  { destruct (get_active_task_repos_frame w) as (t & Ht & _).
    rewrite (bind_frame _ _ w _ Ht).
    destruct t as [e | [| first others]]; try reflexivity.
    destruct (aliases !! first); reflexivity. }
  destruct alias as [[| c a'] |]; try exact Htask.
  destruct (aliases !! String c a'); [reflexivity|].
  rewrite (bind_frame _ _ w _ (path_exists_frame _ w)).
  destruct (exists_in w _); reflexivity.
Qed.

(** ** What the reporting paths leave alone *)

Lemma new_events_log (w : World) (es : list Event) (w' : World) :
  w_trace w' = (w_trace w ++ es)%list -> new_events w w' = es.
Proof.
  intros H. unfold new_events. rewrite H.
  rewrite skipn_app, skipn_all, Nat.sub_diag. reflexivity.
Qed.

(** X9: when [cmd_stack] returns a record, it has touched neither files
    nor directories nor the editor.  It has run the merge-base query alone
    when that query failed, and the record is then an error record;
    otherwise it has run four queries in this order: merge-base, log, branch,
    diff statistics, and its [count] is the number of entries of [commits],
    which are the non-empty lines of the log output. *)
Theorem cmd_stack_read_only :
  forall (repo branch : string) (w w' : World) (d : dict),
    cmd_stack repo branch w = (w', inr d) ->
    w_files w' = w_files w /\ w_dirs w' = w_dirs w
    /\ (let mbr := w_git w (merge_base_args branch) repo in
        let mb := strip (stdout mbr) in
        if nonzero (returncode mbr) then
          new_events w w' = [EvGit (merge_base_args branch) repo]
          /\ status_of d = Some "error"
        else
          new_events w w'
          = [EvGit (merge_base_args branch) repo;
             EvGit ["log"; "--oneline"; mb ++ "..HEAD"] repo;
             EvGit branch_args repo;
             EvGit ["diff"; "--stat"; mb] repo]
          /\ (let commits :=
                nonempty_lines
                  (stdout (w_git w ["log"; "--oneline"; mb ++ "..HEAD"]
                             repo)) in
              dict_get "commits" d = Some (VList (map VStr commits))
              /\ dict_get "count" d
                 = Some (VInt (Z.of_nat (length commits))))).
Proof.
  intros repo branch w w' d. cbv zeta. unfold cmd_stack, merge_base_args,
    branch_args.
  rewrite bind_git. destruct (nonzero _).
  - intros [= <- <-]. repeat split.
    apply new_events_log. reflexivity.
  - rewrite !bind_git. intros [= <- <-].
    repeat split. apply new_events_log. cbn [log_event w_trace].
    rewrite <- !app_assoc. reflexivity.
Qed.

Lemma cmd_stack_read_only_witness :
  exists w' d,
    cmd_stack "/repo" "main" checkout_world = (w', inr d)
    /\ w_files w' = w_files checkout_world
    /\ w_dirs w' = w_dirs checkout_world
    /\ length (new_events checkout_world w') = 4
    /\ dict_get "count" d = Some (VInt 0).
Proof.
  eexists _, _. split; [vm_compute; reflexivity|].
  destruct (cmd_stack_read_only "/repo" "main" checkout_world _ _ eq_refl)
    as (Hf & Hd & _).
  split; [exact Hf|]. split; [exact Hd|]. split; reflexivity.
Defined.

(** X10: when [cmd_incremental] or [cmd_milestone] returns a record whose
    status is not [staged] (an error or nothing to review), it has touched
    neither files nor directories, has not started the editor, and the only
    external commands it has run are version-control queries. *)
Theorem unstaged_review_no_side_effect :
  forall (repo branch : string) (n : Z) (w w' : World) (d : dict),
    cmd_incremental repo n w = (w', inr d)
    \/ cmd_milestone repo branch w = (w', inr d) ->
    status_of d <> Some "staged" ->
    w_files w' = w_files w /\ w_dirs w' = w_dirs w
    /\ forallb is_git (new_events w w') = true.
Proof.
  intros repo branch n w w' d [H | H]; revert H.
  - rewrite cmd_incremental_unfold. cbv zeta.
    destruct (nonzero _).
    { intros [= <- <-] _. repeat split.
      now rewrite (new_events_log w [EvGit (diff_args n) repo]). }
    destruct (nonempty_lines _) as [| f fs].
    { intros [= <- <-] _. repeat split.
      now rewrite (new_events_log w [EvGit (diff_args n) repo]). }
    destruct (open_in_vscode _ _ _) as [w3 [e|u]]; [discriminate|].
    destruct (get_vscode_mode _) as [w4 [e|mode]]; [discriminate|].
    intros [= <- <-] Hs. now contradiction Hs.
  - rewrite cmd_milestone_unfold. cbv zeta.
    destruct (nonzero _).
    { intros [= <- <-] _. repeat split.
      now rewrite (new_events_log w [EvGit (merge_base_args branch) repo]). }
    destruct (if nonzero _ then _ else _); [|discriminate].
    destruct (nonempty_lines _) as [| f fs].
    { intros [= <- <-] _. repeat split.
      erewrite new_events_log
        by (cbn [log_event w_trace]; rewrite <- !app_assoc; reflexivity).
      reflexivity. }
    destruct (open_in_vscode _ _ _) as [w3 [e|u]]; [discriminate|].
    destruct (get_vscode_mode _) as [w4 [e|mode]]; [discriminate|].
    intros [= <- <-] Hs. now contradiction Hs.
Qed.

Lemma unstaged_review_no_side_effect_witness :
  exists w' d,
    cmd_milestone "/repo" "same" broken_world = (w', inr d)
    /\ status_of d = Some "nothing_to_review"
    /\ w_files w' = w_files broken_world
    /\ length (new_events broken_world w') = 4.
Proof.
  eexists _, _. split; [vm_compute; reflexivity|].
  split; [reflexivity|]. split; [|reflexivity].
  refine (proj1 (unstaged_review_no_side_effect "/repo" "same" 1
                   broken_world _ _ (or_intror _) _)).
  - vm_compute. reflexivity.
  - discriminate.
Defined.

(** ** More on the comment scanner *)

Lemma scan_lines_acc (repo : string) (lines : list string) :
  forall acc out,
    scan_lines repo [] lines = inr out ->
    scan_lines repo acc lines = inr (acc ++ out)%list.
Proof.
  induction lines as [| l ls IH]; intros acc out.
  - cbn. intros [= <-]. now rewrite app_nil_r.
  - cbn [scan_lines]. destruct (scan_line repo l) as [e | recs];
      [discriminate|].
    cbn [app]. intros H.
    destruct (scan_lines_total repo ls []) as [rest Hrest].
    rewrite (IH recs rest Hrest) in H. injection H as <-.
    rewrite (IH (acc ++ recs)%list rest Hrest). now rewrite app_assoc.
Qed.

(** X11: the scanner works line by line and keeps the order of the search
    output: the records of two runs of lines put together are the records
    of the first run followed by those of the second, and a run gives at
    most one record per line. *)
Theorem scan_lines_in_order :
  forall (repo : string) (l1 l2 : list string),
    exists c1 c2,
      scan_lines repo [] l1 = inr c1
      /\ scan_lines repo [] l2 = inr c2
      /\ scan_lines repo [] (l1 ++ l2) = inr (c1 ++ c2)%list
      /\ length c1 <= length l1.
Proof.
  intros repo l1 l2.
  destruct (scan_lines_total repo l2 []) as [c2 H2].
  induction l1 as [| l ls (c1 & c2' & H1 & H2' & H12 & Hlen)].
  - exists [], c2. repeat split; auto.
  - assert (c2' = c2) as -> by congruence.
    destruct (scan_line_total repo l) as (recs & Hl & Hone).
    exists (recs ++ c1)%list, c2. cbn [app scan_lines]. rewrite Hl.
    cbn [app]. rewrite (scan_lines_acc _ _ recs _ H1).
    rewrite (scan_lines_acc _ _ recs _ H12).
    repeat split; auto.
    + now rewrite app_assoc.
    + rewrite length_app. cbn [length]. lia.
Qed.

Lemma span_until_inv (c : ascii) (s a b : string) :
  span_until c s = Some (a, b) -> s = a ++ String c b /\ lacks c a = true.
Proof.
  revert a. induction s as [| x s IH]; intros a; [discriminate|].
  cbn [span_until]. destruct (Ascii.eqb x c) eqn:E.
  - intros [= <- <-]. apply Ascii.eqb_eq in E as ->. now split.
  - destruct (span_until c s) as [[a' b']|]; [|discriminate].
    intros [= <- <-]. destruct (IH a' eq_refl) as [-> Hl].
    split; [reflexivity|]. cbn [lacks]. now rewrite E, Hl.
Qed.

Lemma strip_opt_decomp (c : ascii) (p : string) :
  nonempty p = true -> lacks ":" p = true ->
  exists pfx,
    (pfx = "" \/ pfx = String c "")
    /\ p = pfx ++ strip_opt c p
    /\ nonempty (strip_opt c p) = true
    /\ lacks ":" (strip_opt c p) = true.
Proof.
  intros Hne Hl. destruct p as [| x [| y r]]; [discriminate| |].
  - exists "". now repeat split; auto.
  - cbn [strip_opt]. destruct (Ascii.eqb x c) eqn:E.
    + apply Ascii.eqb_eq in E as ->. exists (String c "").
      repeat split; auto. cbn [lacks] in Hl.
      now apply andb_prop in Hl as [_ Hl].
    + exists "". now repeat split; auto.
Qed.

(** X12: when the pattern of the scanner accepts an output line, the line
    is the file group, the digits and the text joined by colons, after an
    optional leading dot, slash or dot-slash that the file group leaves out;
    the file group is non-empty and holds no colon, and the line-number
    group is a non-empty run of decimal digits. *)
Theorem match_grep_line_decomposes :
  forall (ln fp d text : string),
    match_grep_line ln = Some (fp, d, text) ->
    exists pfx,
      In pfx [""; "."; "/"; "./"]
      /\ ln = pfx ++ grep_line fp d text
      /\ nonempty fp = true /\ lacks ":" fp = true
      /\ nonempty d = true /\ all_digits d = true.
Proof.
  intros ln fp d text. unfold match_grep_line.
  destruct (span_until ":" ln) as [[p r]|] eqn:Ep; [|discriminate].
  destruct (span_until ":" r) as [[d' t]|] eqn:Ed; [|discriminate].
  destruct (nonempty p) eqn:Hp; [|discriminate].
  destruct (nonempty d') eqn:Hd; [|discriminate].
  destruct (all_digits d') eqn:Hdig; [|discriminate].
  cbn [andb]. intros [= <- <- <-].
  apply span_until_inv in Ep as [-> Hlp]. apply span_until_inv in Ed as [-> _].
  destruct (strip_opt_decomp "." p Hp Hlp) as (q1 & Hq1 & E1 & Hn1 & Hl1).
  destruct (strip_opt_decomp "/" _ Hn1 Hl1) as (q2 & Hq2 & E2 & Hn2 & Hl2).
  exists (q1 ++ q2). split.
  - destruct Hq1 as [-> | ->], Hq2 as [-> | ->]; cbn; auto.
  - split; [|auto]. unfold grep_line.
    rewrite E1 at 1. rewrite E2 at 1. now rewrite !append_assoc.
Qed.

Lemma match_grep_line_decomposes_witness :
  exists pfx,
    In pfx [""; "."; "/"; "./"]
    /\ "./src/a.cpp:42:  // RVW: why" = pfx ++ grep_line "src/a.cpp" "42"
                                                "  // RVW: why".
Proof.
  destruct (match_grep_line_decomposes "./src/a.cpp:42:  // RVW: why"
              "src/a.cpp" "42" "  // RVW: why" eq_refl)
    as (pfx & Hin & Heq & _).
  now exists pfx.
Defined.

(** ** What the comment scan returns *)

(** The loop appends, line after line, what each round gives. *)
Lemma scan_lines_concat (repo : string) (lines : list string) :
  forall acc,
    scan_lines repo acc lines
    = inr (acc ++ concat (map (line_records repo) lines))%list.
Proof.
  induction lines as [| l ls IH]; intros acc.
  - cbn. now rewrite app_nil_r.
  - cbn [scan_lines map concat]. unfold line_records at 1.
    destruct (scan_line_total repo l) as (recs & -> & _).
    rewrite IH. now rewrite app_assoc.
Qed.

Lemma line_records_length (repo : string) (lines : list string) :
  length (concat (map (line_records repo) lines)) <= length lines.
Proof.
  induction lines as [| l ls IH]; [reflexivity|].
  cbn [map concat length]. rewrite length_app. unfold line_records at 1.
  destruct (scan_line_total repo l) as (recs & -> & Hone). lia.
Qed.

(** A search finds its marker exactly when the text contains it. *)
Lemma re_search_marker_contains (m content : string) :
  (contains m content = true ->
   exists t, re_search_marker m content = Some t)
  /\ (contains m content = false -> re_search_marker m content = None).
Proof.
  unfold re_search_marker. split; intros H.
  - destruct (find m content) as [i|] eqn:F.
    + rewrite (find_after_first _ _ _ F). eexists. reflexivity.
    + apply find_none_contains in F. congruence.
  - apply find_none_contains in H.
    now rewrite (find_none_after_first _ _ H).
Qed.

(** The record of a well-formed line that holds a marker. *)
Lemma line_records_marker (repo path digits text : string) :
  nonempty path = true -> lacks ":" path = true ->
  nonempty digits = true -> all_digits digits = true ->
  contains "RVWY:" (strip text) || contains "RVW:" (strip text) = true ->
  exists rec,
    line_records repo (grep_line path digits text) = [rec]
    /\ dict_get "relative_path" rec
       = Some (VStr (strip_opt "/" (strip_opt "." path)))
    /\ dict_get "line" rec = option_map VInt (int_of_str digits)
    /\ dict_get "raw" rec = Some (VStr (strip text))
    /\ dict_get "yolo" rec = Some (VBool (contains "RVWY:" (strip text))).
Proof.
  intros Hp Hc Hd Hdig Hmark.
  destruct (int_of_str_digits digits Hd Hdig) as [lineno Hint].
  unfold line_records.
  rewrite (scan_line_wf repo path digits text lineno Hp Hc Hd Hdig Hint).
  rewrite Hint. cbv zeta.
  destruct (re_search_marker_contains "RVWY:" (strip text)) as [Hy1 Hy0].
  destruct (re_search_marker_contains "RVW:" (strip text)) as [Hw1 Hw0].
  destruct (contains "RVWY:" (strip text)) eqn:Ey.
  - destruct (Hy1 eq_refl) as [t ->]. eexists. repeat split.
  - rewrite (Hy0 eq_refl). cbn [orb] in Hmark.
    destruct (Hw1 Hmark) as [t ->]. eexists. repeat split.
Qed.

Lemma start_in_directory (repo : string) (w : World) :
  bool_decide (repo ∈ w_dirs w) = true -> start_in repo w = (w, inr tt).
Proof. intros H. unfold start_in. now rewrite H. Qed.

(** C9, as the code has it: when the repository path is an existing
    directory, [cmd_comments] raises nothing and returns a record without a
    [status] entry, whatever the search tool's exit code and standard error:
    the repository path, the list of records the loop gives for the lines of
    the tool's standard output, in order, and their number as [count].  Each
    well-formed output line whose text holds a marker has its record in the
    list, with the file, the line number, the stripped text and the marker
    read from that line. *)
Theorem cmd_comments_in_directory :
  forall (repo : string) (w : World),
    bool_decide (repo ∈ w_dirs w) = true ->
    let lines := split NL (strip (stdout (w_grep w GREP_ARGV repo))) in
    let comments := concat (map (line_records repo) lines) in
    cmd_comments repo w
    = (log_event (EvGrep GREP_ARGV repo) w,
       inr [("repo", VStr repo);
            ("count", VInt (Z.of_nat (length comments)));
            ("comments", VList (map VDict comments))])
    /\ (forall d, snd (cmd_comments repo w) = inr d -> status_of d = None)
    /\ length comments <= length lines
    /\ (forall path digits text,
          In (grep_line path digits text) lines ->
          nonempty path = true -> lacks ":" path = true ->
          nonempty digits = true -> all_digits digits = true ->
          contains "RVWY:" (strip text) || contains "RVW:" (strip text)
          = true ->
          exists rec,
            In rec comments
            /\ dict_get "relative_path" rec
               = Some (VStr (strip_opt "/" (strip_opt "." path)))
            /\ dict_get "line" rec = option_map VInt (int_of_str digits)
            /\ dict_get "raw" rec = Some (VStr (strip text))
            /\ dict_get "yolo" rec
               = Some (VBool (contains "RVWY:" (strip text)))).
Proof.
  intros repo w Hdir lines comments.
  assert (cmd_comments repo w
          = (log_event (EvGrep GREP_ARGV repo) w,
             inr [("repo", VStr repo);
                  ("count", VInt (Z.of_nat (length comments)));
                  ("comments", VList (map VDict comments))])) as E.
  { unfold cmd_comments.
    rewrite (bind_frame _ _ w _ (start_in_directory repo w Hdir)).
    unfold_m. cbn [w_grep log_event]. fold lines.
    rewrite (scan_lines_concat repo lines []). reflexivity. }
  split; [exact E|]. split; [rewrite E; intros d [= <-]; reflexivity|].
  split; [apply line_records_length|].
  intros path digits text Hin Hp Hc Hd Hdig Hmark.
  destruct (line_records_marker repo path digits text Hp Hc Hd Hdig Hmark)
    as (rec & Hrec & Hrel & Hline & Hraw & Hyolo).
  exists rec. split; [|auto].
  apply in_concat. exists [rec]. split; [|now left].
  rewrite <- Hrec. now apply in_map.
Qed.

Lemma cmd_comments_in_directory_witness :
  snd (cmd_comments "/repo" checkout_world)
  = inr [("repo", VStr "/repo");
         ("count", VInt 2);
         ("comments",
          VList [VDict (comment_record "/repo" "src/a.cpp" 42
                          "// RVWY: fix bounds check" "fix bounds check"
                          true);
                 VDict (comment_record "/repo" "tools/b.py" 3
                          "# RVW: discuss naming" "discuss naming" false)])]
  /\ snd (cmd_comments "/repo" silent_world)
     = inr [("repo", VStr "/repo"); ("count", VInt 0);
            ("comments", VList [])].
Proof.
  split.
  - rewrite (proj1 (cmd_comments_in_directory "/repo" checkout_world
                      eq_refl)).
    vm_compute. reflexivity.
  - rewrite (proj1 (cmd_comments_in_directory "/repo" silent_world eq_refl)).
    vm_compute. reflexivity.
Defined.

(** C9 as stated fails: a repository path that is not an existing directory
    makes the start of the search tool raise, and no record is returned.
    Resolution hands such paths over unchecked: the path of a table entry,
    here [/src/llvm-project], or an existing regular file. *)
Lemma cmd_comments_counterexample :
  bind (resolve_repo (Some "llvm")) cmd_comments workspace_world
  = (workspace_world, inl (FileNotFoundError "/src/llvm-project"))
  /\ cmd_comments "/tmp/checkout" checkout_world
     = (checkout_world, inl (NotADirectoryError "/tmp/checkout")).
Proof. split; vm_compute; reflexivity. Qed.

